(** * pubtools.pulplib: the Repository model
    (src/pubtools/pulplib/_impl/model/repository/base.py)

    A shallow embedding of the repository model of pubtools-pulplib and of
    the operations it drives on a Pulp client: the [product_versions]
    converter, the distributor validator, the mutable-notes payload, and the
    publish / sync / remove_content / upload-then-import operations.

    Python values are modelled as follows.
    - [str] is [string], the bytes of its UTF-8 form, whose order is the
      order of the code points; the builtin [int] is a parameter of what uses
      it, since its answer depends on the interpreter (digits outside ASCII,
      the limit on the number of digits).
    - [None]-able attributes are [option]s; truthiness ([not x], [x or y])
      is written out at each use.
    - the dict keyed by distributor id is a [gmap string _]; dicts whose
      insertion order is observable (payloads, raw Pulp data) are
      association lists.
    - a raised exception is the left injection of a sum.
    - calls on the Pulp client and on the plugin manager are recorded in a
      trace of events, in program order.

    Part I holds the embedding, Part II the theorems. *)

From Stdlib Require Import ZArith Ascii String List Bool Lia.
From Stdlib Require Import Sorting.Sorted Sorting.Permutation.
From stdpp Require Import base option strings gmap.
From Stdlib Require DecimalString DecimalZ DecimalPos.
Import ListNotations.

Local Open Scope string_scope.
Local Open Scope Z_scope.
Local Open Scope list_scope.

(** * Part I: the embedding *)

(** ** Python's [sorted]

    [sorted] is stable and compares with [<] only.  The model is a stable
    insertion sort: an element is placed before the first element that is
    not smaller than it, and elements are inserted from the right, so that
    equal elements keep their input order. *)

Module PySort.

Fixpoint insert {A : Type} (lt : A -> A -> bool) (x : A) (l : list A) : list A :=
  match l with
  | [] => [x]
  | y :: l' => if lt y x then y :: insert lt x l' else x :: y :: l'
  end.

Definition sorted {A : Type} (lt : A -> A -> bool) (l : list A) : list A :=
  fold_right (insert lt) [] l.

(** [le lt a b]: [b] is not smaller than [a]. *)
Definition le {A : Type} (lt : A -> A -> bool) (a b : A) : Prop := lt b a = false.

End PySort.

(** ** Python's [<] on lists of integers and on strings *)

(** [a < b] on lists: the first position where they differ decides; a
    proper prefix is smaller. *)
Fixpoint list_lt (a b : list Z) : bool :=
  match a, b with
  | [], [] => false
  | [], _ :: _ => true
  | _ :: _, [] => false
  | x :: a', y :: b' => if x <? y then true else if y <? x then false else list_lt a' b'
  end.

Definition code (c : ascii) : Z := Z.of_N (N_of_ascii c).

(** [a < b] on strings, by code of the first differing character. *)
Fixpoint str_lt (a b : string) : bool :=
  match a, b with
  | EmptyString, EmptyString => false
  | EmptyString, String _ _ => true
  | String _ _, EmptyString => false
  | String x a', String y b' =>
      if code x <? code y then true else if code y <? code x then false else str_lt a' b'
  end.

(** ** Python's [str.split(".")], and decimal literals in ASCII *)

(** [s.split(".")]: never empty; [""] gives [[""]], ["8."] gives [["8"; ""]]. *)
Fixpoint split_dot (s : string) : list string :=
  match s with
  | EmptyString => [EmptyString]
  | String c s' =>
      if Ascii.eqb c "." then EmptyString :: split_dot s'
      else match split_dot s' with
           | h :: t => String c h :: t
           | [] => [String c EmptyString]
           end
  end.

(** The ASCII white space that may surround a literal: tab, line feed,
    vertical tab, form feed, carriage return and space. *)
Definition is_space (c : ascii) : bool :=
  ((9 <=? code c) && (code c <=? 13)) || (code c =? 32).

Definition digit_val (c : ascii) : option Z :=
  if (48 <=? code c) && (code c <=? 57) then Some (code c - 48) else None.

(** The digits after the first one: single underscores are allowed between
    digits, and only white space may follow the last digit. *)
Fixpoint int_digits (acc : Z) (s : list ascii) : option Z :=
  match s with
  | [] => Some acc
  | c :: s' =>
      match digit_val c with
      | Some d => int_digits (10 * acc + d) s'
      | None =>
          if Ascii.eqb c "_" then
            match s' with
            | c' :: s'' =>
                match digit_val c' with
                | Some d => int_digits (10 * acc + d) s''
                | None => None
                end
            | [] => None
            end
          else if forallb is_space s then Some acc else None
      end
  end.

Fixpoint drop_space (s : list ascii) : list ascii :=
  match s with
  | c :: s' => if is_space c then drop_space s' else s
  | [] => []
  end.

Definition int_unsigned (s : list ascii) : option Z :=
  match s with
  | c :: s' => match digit_val c with Some d => int_digits d s' | None => None end
  | [] => None
  end.

(** The integer written by a text in the ASCII grammar of integer
    literals in base 10: white space, an optional sign, digits with single
    underscores between them, white space; [None] when the text is not in
    this grammar.  This is not [int]: [int] also reads digits and white space
    outside ASCII, and refuses literals longer than the interpreter's limit
    on digits.  It serves as one instance of [int], in examples, and as what
    [int] returns on the short plain literals of [reads_decimal]. *)
Definition int_ascii (s : string) : option Z :=
  match drop_space (list_ascii_of_string s) with
  | "+"%char :: r => int_unsigned r
  | "-"%char :: r => Z.opp <$> int_unsigned r
  | r => int_unsigned r
  end.

(** ** [pv_converter] *)

(** The sort key, [[int(c) for c in str(version).split(".")]]; [None] when
    some [int(c)] raises [ValueError].  The builtin is the parameter [int]:
    for a string, [int] returns an integer or raises [ValueError], which is
    [None]. *)
Definition version_key (int : string -> option Z) (version : string) : option (list Z) :=
  mapM int (split_dot version).

(** [sorted(versions, key=...)] first computes the key of every element, so
    one failing element makes the whole call raise; the elements are then
    ordered by their keys alone.  The input is the list after
    [[str(v) for v in versions]]. *)
Definition pv_converter (int : string -> option Z) (versions : list string) : list string :=
  match mapM (fun v => k ← version_key int v; Some (k, v)) versions with
  | Some keyed => snd <$> PySort.sorted (fun a b => list_lt (fst a) (fst b)) keyed
  | None => PySort.sorted str_lt versions
  end.

(** ** Python values

    The values that travel between the model and the Pulp client: raw Pulp
    data, payloads, configurations and responses. A dict is an association
    list in insertion order, with at most one entry per key. *)

#[warnings="-register-all"]
Inductive pyval : Type :=
| PNone
| PBool (b : bool)
| PInt (z : Z)
| PStr (s : string)
| PList (l : list pyval)
| PDict (d : list (string * pyval)).

Abbreviation pydict := (list (string * pyval)).

(** [bool(v)]. *)
Definition truthy (v : pyval) : bool :=
  match v with
  | PNone => false
  | PBool b => b
  | PInt z => negb (z =? 0)
  | PStr s => negb (String.eqb s "")
  | PList l => match l with [] => false | _ => true end
  | PDict d => match d with [] => false | _ => true end
  end.

(** [d.get(k)]. *)
Fixpoint dict_get (k : string) (d : pydict) : option pyval :=
  match d with
  | [] => None
  | (k', v) :: d' => if String.eqb k k' then Some v else dict_get k d'
  end.

(** [d[k] = v]: an existing key keeps its place, a new key goes last. *)
Fixpoint dict_set (k : string) (v : pyval) (d : pydict) : pydict :=
  match d with
  | [] => [(k, v)]
  | (k', v') :: d' => if String.eqb k k' then (k, v) :: d' else (k', v') :: dict_set k v d'
  end.

Definition keys (d : pydict) : list string := fst <$> d.

(** ** Exceptions, futures and the trace of calls *)

Inductive exn : Type :=
| DetachedException
| ValueError (msg : string)
| KeyError (key : string)
| TypeError
| RemoteError (msg : string).

(** [inl e]: the exception [e] was raised. *)
Definition result (A : Type) : Type := exn + A.

(** A future of more_executors, observed once it is settled: it holds a
    value or the exception it failed with. *)
Definition Future (A : Type) : Type := result A.

(** ** Distributors, options and repositories *)

(** Modelled from the spec: the Distributor class (model/distributor.py) is
    not part of the sources at hand; the record holds the attributes that
    base.py reads: [id], [repo_id] and the capability flag [is_rsync]. *)
Record Distributor : Type := {
  d_id : string;
  repo_id : option string;
  is_rsync : bool
}.

Record PublishOptions : Type := {
  force : option bool;
  clean : option bool;
  origin_only : option bool;
  rsync_extra_args : option (list string)
}.

(** [PublishOptions()]. *)
Definition PublishOptions_default : PublishOptions :=
  {| force := None; clean := None; origin_only := None; rsync_extra_args := None |}.

Record SyncOptions : Type := {
  feed : option string;
  ssl_validation : option bool;
  ssl_ca_cert : option string;
  ssl_client_cert : option string;
  ssl_client_key : option string;
  max_speed : option Z;
  proxy_host : option string;
  proxy_port : option Z;
  proxy_username : option string;
  proxy_password : option string;
  basic_auth_username : option string;
  basic_auth_password : option string
}.

(** [SyncOptions(feed=f)]: every other attribute takes its default, [None]. *)
Definition SyncOptions_feed (f : option string) : SyncOptions :=
  {| feed := f; ssl_validation := None; ssl_ca_cert := None;
     ssl_client_cert := None; ssl_client_key := None; max_speed := None;
     proxy_host := None; proxy_port := None; proxy_username := None;
     proxy_password := None; basic_auth_username := None;
     basic_auth_password := None |}.

(** The attributes of a Repository that the operations below read. The
    client an instance is attached to ([self._client]) is passed next to
    the record. *)
Record Repository : Type := {
  id : string;
  distributors : list Distributor
}.

(** Modelled from the spec: Criteria and Matcher (criteria.py) are not part
    of the sources at hand; the spec describes an immutable predicate tree
    with the nodes field-equals, field-in and and-of. *)
Inductive Matcher : Type :=
| equals (value : pyval)
| in_ (values : list string).

#[warnings="-register-all"]
Inductive Criteria : Type :=
| with_field (field : string) (matcher : Matcher)
| and_ (children : list Criteria).

(** The calls made on the Pulp client, on the plugin manager, on the
    logger and on the caller's derivation functions. *)
Inductive Event : Type :=
| EvSearchRepoUnits (repo : string) (criteria : option Criteria)
| EvPrePublish (repository : Repository) (options : PublishOptions)
| EvPublishRepository (repository : Repository) (to_publish : list (Distributor * pydict))
| EvPublished (repository : Repository) (options : PublishOptions)
| EvDoSync (repo : string) (payload : pydict)
| EvWarn (msg : string)
| EvDoUnassociate (repo : string) (criteria : option Criteria)
| EvRequestUpload (name : string)
| EvLogUploading (name repo : string) (upload_id : pyval)
| EvDoUploadFile (upload_id : pyval) (file_obj name : string)
| EvUnitKeyFn (upload : pyval)
| EvUnitMetadataFn (upload : pyval)
| EvDoImport (repo : string) (upload_id : pyval) (type_id : string) (unit_key unit_metadata : pyval)
| EvDeleteUploadRequest (upload_id : pyval) (name : string).

(** The Pulp client (the transport collaborator): for each call, the
    settled future it answers with. *)
Record Client : Type := {
  _search_repo_units : string -> option Criteria -> Future pyval;
  _publish_repository : Repository -> list (Distributor * pydict) -> Future pyval;
  _do_sync : string -> pydict -> Future pyval;
  _do_unassociate : string -> option Criteria -> Future pyval;
  _request_upload : string -> Future pyval;
  _do_upload_file : pyval -> string -> string -> Future pyval;
  _do_import : string -> pyval -> string -> pyval -> pyval -> Future pyval;
  _delete_upload_request : pyval -> string -> Future pyval
}.

(** The plugin manager [pm]: the values returned by the extensions
    registered at the pre-publish hook, one per extension. *)
Record PluginManager : Type := {
  pulp_repository_pre_publish : Repository -> PublishOptions -> list (option PublishOptions)
}.

(** ** Operations with a trace

    An operation returns its result, or the exception it raised, together
    with the events it caused. *)

Definition Op (A : Type) : Type := result A * list Event.

Definition ret {A : Type} (a : A) : Op A := (inr a, []).

Definition raise {A : Type} (e : exn) : Op A := (inl e, []).

Definition bind {A B : Type} (m : Op A) (k : A -> Op B) : Op B :=
  match m with
  | (inl e, t) => (inl e, t)
  | (inr a, t) => let '(r, t') := k a in (r, t ++ t')
  end.

Definition emit (e : Event) : Op unit := (inr tt, [e]).

(** An effect-free computation that may raise. *)
Definition lift {A : Type} (r : result A) : Op A := (r, []).

Notation "'let!' x ':=' m 'in' k" := (bind m (fun x => k))
  (at level 10, x name, m at level 100, k at level 200).
Notation "'do!' m 'in' k" := (bind m (fun _ => k))
  (at level 10, m at level 100, k at level 200).

(** A call that is recorded and answered with [r]. *)
Definition call {A : Type} (e : Event) (r : A) : Op A :=
  do! emit e in ret r.

(** [f_map(f, fn)]: [fn] runs on the value of [f] once [f] has succeeded,
    and what it returns or raises settles the new future; when [f] has
    failed, [fn] does not run and the new future fails the same way. *)
Definition f_map {A B : Type} (f : Future A) (fn : A -> Op B) : Op (Future B) :=
  match f with
  | inl e => ret (inl e)
  | inr a => let '(r, t) := fn a in (inr r, t)
  end.

(** [f_flat_map(f, fn)]: as [f_map], for an [fn] that returns a future;
    the new future settles as the returned one does. *)
Definition f_flat_map {A B : Type} (f : Future A) (fn : A -> Op (Future B)) : Op (Future B) :=
  match f with
  | inl e => ret (inl e)
  | inr a =>
      let '(r, t) := fn a in
      (inr (match r with inl e => inl e | inr fut => fut end), t)
  end.

(** [f_proxy(f)] wraps [f] in a proxy that settles as [f] does. *)
Definition f_proxy {A : Type} (f : Future A) : Future A := f.

(** [f.result()]. *)
Definition future_result {A : Type} (f : Future A) : Op A := lift f.

(** ** Repository: the validator of [distributors] *)

(** How one turn of a [for] loop ends: it falls through to the next
    element, it returns from the function, or it raises. *)
Inductive control : Type :=
| Next
| Return
| Raise (e : exn).

(** [for x in l: body(x)], in a function that returns [None] after the
    loop. *)
Fixpoint for_each {A : Type} (body : A -> control) (l : list A) : result unit :=
  match l with
  | [] => inr tt
  | x :: l' =>
      match body x with
      | Next => for_each body l'
      | Return => inr tt
      | Raise e => inl e
      end
  end.

(** The body of the loop of [_check_repo_id]: [return] when the
    distributor has no [repo_id], [return] when it is the repository's,
    [raise] otherwise. No path falls through to the next distributor. *)
Definition _check_repo_id_body (self_id : string) (distributor : Distributor) : control :=
  match repo_id distributor with
  | None => Return
  | Some rid =>
      if String.eqb rid "" then Return
      else if String.eqb rid self_id then Return
      else Raise (ValueError ("repo_id doesn't match for " +:+ d_id distributor
                              +:+ ". repo_id: " +:+ self_id
                              +:+ ", distributor.repo_id: " +:+ rid))
  end.

(** [_check_repo_id(self, _, value)].  [inr tt] is the normal return (the
    attribute is accepted), [inl (ValueError _)] rejects the construction. *)
Definition _check_repo_id (self_id : string) (value : list Distributor) : result unit :=
  for_each (_check_repo_id_body self_id) value.

(** The check that the validator's comment describes, on one distributor:
    its repository id is unset, empty, or the id of the repository. *)
Definition repo_id_ok (self_id : string) (distributor : Distributor) : bool :=
  match repo_id distributor with
  | None => true
  | Some rid => String.eqb rid "" || String.eqb rid self_id
  end.

(** [Repository(id=..., distributors=...)]: the attrs-generated constructor
    runs the validator and builds the instance when it returns. *)
Definition Repository_init (self_id : string) (ds : list Distributor) : result Repository :=
  match _check_repo_id self_id ds with
  | inl e => inl e
  | inr _ => inr {| id := self_id; distributors := ds |}
  end.

(** [_distributors_by_id]: a later distributor replaces an earlier one
    with the same id. *)
Definition _distributors_by_id (self : Repository) : gmap string Distributor :=
  foldl (fun out dist => <[d_id dist := dist]> out) ∅ (distributors self).

(** ** Repository: the mutable notes *)

(** The metadata of an attribute declared with [pulp_attrib]:
    [pulp_field] is [metadata.get(PULP2_FIELD)] and [mutable] is
    [metadata.get(PULP2_MUTABLE)]. *)
Record Field : Type := {
  name : string;
  pulp_field : option string;
  mutable : bool
}.

Definition mkField (n : string) (p : option string) (m : bool) : Field :=
  {| name := n; pulp_field := p; mutable := m |}.

(** [attr.fields(Repository)], in declaration order. *)
Definition Repository_fields : list Field :=
  [ mkField "id" (Some "id") false;
    mkField "type" (Some "notes._repo-type") false;
    mkField "created" (Some "notes.created") false;
    mkField "distributors" (Some "distributors") false;
    mkField "eng_product_id" (Some "notes.eng_product") false;
    mkField "relative_url" None false;
    mkField "mutable_urls" None false;
    mkField "is_sigstore" None false;
    mkField "is_temporary" (Some "notes.pub_temp_repo") false;
    mkField "signing_keys" (Some "notes.signatures") false;
    mkField "skip_rsync_repodata" None false;
    mkField "content_set" (Some "notes.content_set") false;
    mkField "arch" (Some "notes.arch") false;
    mkField "platform_full_version" (Some "notes.platform_full_version") false;
    mkField "product_versions" (Some "notes.product_versions") true;
    mkField "include_in_download_service"
            (Some "notes.include_in_download_service") true;
    mkField "include_in_download_service_preview"
            (Some "notes.include_in_download_service_preview") true ].

(** [fld.metadata.get(PULP2_FIELD, "")]. *)
Definition pulp_field_or_empty (fld : Field) : string :=
  match pulp_field fld with Some p => p | None => "" end.

Definition _mutable_note_fields (fields : list Field) : list Field :=
  filter (fun fld => bool_decide (String.prefix "notes." (pulp_field_or_empty fld) = true
                                  /\ mutable fld = true)) fields.

(** The sentinel [ABSENT], distinct from [None]. *)
Inductive lookup_result : Type :=
| ABSENT
| Present (v : pyval).

(** Modelled from the spec: [lookup] (util.py) is not part of the sources at
    hand.  The spec: nested lookup across dotted segments; a missing path
    yields the sentinel absent.  [path] is the key split on ".". *)
Fixpoint lookup_path (value : pyval) (path : list string) : lookup_result :=
  match path with
  | [] => Present value
  | k :: path' =>
      match value with
      | PDict d =>
          match dict_get k d with
          | Some v => lookup_path v path'
          | None => ABSENT
          end
      | _ => ABSENT
      end
  end.

Definition lookup (value : pyval) (key : string) : lookup_result :=
  lookup_path value (split_dot key).

(** Modelled from the spec: [dict_put] (util.py) is not part of the sources
    at hand.  The spec: assign into a nested mapping constructed from the
    remote path.  An inner mapping is created where the path has none;
    [None] stands for the failure to descend into a value that is not a
    mapping. *)
Fixpoint dict_put_path (out : pydict) (path : list string) (value : pyval) : option pydict :=
  match path with
  | [] => Some out
  | k :: path' =>
      match path' with
      | [] => Some (dict_set k value out)
      | _ :: _ =>
          match dict_get k out with
          | None => sub ← dict_put_path [] path' value; Some (dict_set k (PDict sub) out)
          | Some (PDict inner) =>
              sub ← dict_put_path inner path' value; Some (dict_set k (PDict sub) out)
          | Some _ => None
          end
      end
  end.

Definition dict_put (out : pydict) (key : string) (value : pyval) : option pydict :=
  dict_put_path out (split_dot key) value.

(** One turn of the loop of [_mutable_notes]. *)
Definition _mutable_notes_step (self_raw : pyval) (out : option pydict) (field : Field)
  : option pydict :=
  out ← out;
  let pulp_field := pulp_field_or_empty field in
  match lookup self_raw pulp_field with
  | ABSENT => Some out
  | Present pulp_value => dict_put out pulp_field pulp_value
  end.

(** [_mutable_notes], for a class with the attributes [fields] and an
    instance whose raw Pulp form ([self._to_data()]) is [self_raw]. *)
Definition _mutable_notes (fields : list Field) (self_raw : pyval) : option pyval :=
  out ← foldl (_mutable_notes_step self_raw) (Some []) (_mutable_note_fields fields);
  Some (match dict_get "notes" out with
        | Some v => if truthy v then v else PDict []
        | None => PDict []
        end).

(** ** Repository: operations on the client *)

Definition search_content (self : Repository) (_client : option Client)
    (criteria : option Criteria) : Op (Future pyval) :=
  match _client with
  | None => raise DetachedException
  | Some client =>
      call (EvSearchRepoUnits (id self) criteria)
           (_search_repo_units client (id self) criteria)
  end.

Definition PStr_list (l : list string) : pyval := PList (PStr <$> l).

(** [_config_for_distributor(distributor, options)]. *)
Definition _config_for_distributor (distributor : Distributor) (options : PublishOptions)
  : pydict :=
  let out := [] in
  let out :=
    if is_rsync distributor then
      let out := match clean options with
                 | Some c => dict_set "delete" (PBool c) out
                 | None => out
                 end in
      let out := match origin_only options with
                 | Some o => dict_set "content_units_only" (PBool o) out
                 | None => out
                 end in
      match rsync_extra_args options with
      | Some a => dict_set "rsync_extra_args" (PStr_list a) out
      | None => out
      end
    else out in
  match force options with
  | Some f => dict_set "force_full" (PBool f) out
  | None => out
  end.

(** The distributors (by id) activated by a publish, in this order. *)
Definition _PUBLISH_DISTRIBUTORS : list string :=
  [ "iso_distributor";
    "yum_distributor";
    "cdn_distributor";
    "cdn_distributor_unprotected";
    "docker_web_distributor_name_cli" ].

(** [options.origin_only] as a condition. *)
Definition origin_only_set (options : PublishOptions) : bool :=
  match origin_only options with Some b => b | None => false end.

(** One turn of the loop over the candidate ids in [publish]. *)
Definition publish_step (self : Repository) (options : PublishOptions)
    (to_publish : list (Distributor * pydict)) (candidate : string)
  : list (Distributor * pydict) :=
  match _distributors_by_id self !! candidate with
  | None => to_publish
  | Some distributor =>
      if String.eqb (d_id distributor) "docker_web_distributor_name_cli"
         && origin_only_set options
      then to_publish
      else to_publish ++ [(distributor, _config_for_distributor distributor options)]
  end.

(** The options in force after the pre-publish hook: the first value that
    is not [None] among those the extensions returned, else the options
    passed in. *)
Definition adopt_options (hook_rets : list (option PublishOptions)) (options : PublishOptions)
  : PublishOptions :=
  let hook_rets := omap (fun ret => ret) hook_rets in
  match hook_rets with
  | ret :: _ => ret
  | [] => options
  end.

(** The loop over the candidate ids, from an empty [to_publish]. *)
Definition select_distributors (self : Repository) (options : PublishOptions)
  : list (Distributor * pydict) :=
  let candidate_distributor_ids := _PUBLISH_DISTRIBUTORS in
  foldl (publish_step self options) [] candidate_distributor_ids.

Definition publish (pm : PluginManager) (self : Repository) (_client : option Client)
    (options : PublishOptions) : Op (Future pyval) :=
  match _client with
  | None => raise DetachedException
  | Some client =>
      let! hook_rets := call (EvPrePublish self options)
                             (pulp_repository_pre_publish pm self options) in
      let options := adopt_options hook_rets options in
      let to_publish := select_distributors self options in
      let! out := call (EvPublishRepository self to_publish)
                       (_publish_repository client self to_publish) in
      let do_published_hook (tasks : pyval) : Op pyval :=
        do! emit (EvPublished self options) in ret tasks in
      let! out := f_map out do_published_hook in
      ret (f_proxy out)
  end.

(** The attributes of a SyncOptions, by name and in declaration order, as
    [asdict] visits them; [None] is Python's [None]. *)
Definition SyncOptions_attributes (options : SyncOptions) : list (string * option pyval) :=
    [ ("feed", PStr <$> feed options);
      ("ssl_validation", PBool <$> ssl_validation options);
      ("ssl_ca_cert", PStr <$> ssl_ca_cert options);
      ("ssl_client_cert", PStr <$> ssl_client_cert options);
      ("ssl_client_key", PStr <$> ssl_client_key options);
      ("max_speed", PInt <$> max_speed options);
      ("proxy_host", PStr <$> proxy_host options);
      ("proxy_port", PInt <$> proxy_port options);
      ("proxy_username", PStr <$> proxy_username options);
      ("proxy_password", PStr <$> proxy_password options);
      ("basic_auth_username", PStr <$> basic_auth_username options);
      ("basic_auth_password", PStr <$> basic_auth_password options) ].

(** [asdict(options, filter=lambda name, val: val is not None)]. *)
Definition asdict_not_none (options : SyncOptions) : pydict :=
  omap (fun '(name, val) => v ← val; Some (name, v)) (SyncOptions_attributes options).

Definition sync (self : Repository) (_client : option Client) (options : option SyncOptions)
  : Op (Future pyval) :=
  let options := match options with
                 | Some o => o
                 | None => SyncOptions_feed (Some "")
                 end in
  match _client with
  | None => raise DetachedException
  | Some client =>
      let payload := asdict_not_none options in
      let! out := call (EvDoSync (id self) payload) (_do_sync client (id self) payload) in
      ret (f_proxy out)
  end.

(** [remove_content(criteria, **kwargs)]; [type_ids] is
    [kwargs.get("type_ids")]. *)
Definition remove_content (self : Repository) (_client : option Client)
    (criteria : option Criteria) (type_ids : option (list string)) : Op (Future pyval) :=
  match _client with
  | None => raise DetachedException
  | Some client =>
      let! criteria :=
        match criteria with
        | Some c => ret (Some c)
        | None =>
            match type_ids with
            | Some ids =>
                do! emit (EvWarn "type_ids is deprecated, use criteria instead") in
                ret (Some (with_field "content_type_id" (in_ ids)))
            | None => ret None
            end
        end in
      let! out := call (EvDoUnassociate (id self) criteria)
                       (_do_unassociate client (id self) criteria) in
      ret (f_proxy out)
  end.

(** [upload["upload_id"]]. *)
Definition subscript (value : pyval) (key : string) : result pyval :=
  match value with
  | PDict d => match dict_get key d with Some v => inr v | None => inl (KeyError key) end
  | _ => inl TypeError
  end.

(** [unit_key_fn or (lambda _: {})] and [unit_metadata_fn or (lambda _: None)]. *)
Definition unit_key_fn_or_default (unit_key_fn : option (pyval -> result pyval))
  : pyval -> result pyval :=
  match unit_key_fn with Some fn => fn | None => fun _ => inr (PDict []) end.

Definition unit_metadata_fn_or_default (unit_metadata_fn : option (pyval -> result pyval))
  : pyval -> result pyval :=
  match unit_metadata_fn with Some fn => fn | None => fun _ => inr PNone end.

(** [_upload_then_import].  The derivation functions are pure and may
    raise; their invocations are recorded with the argument they receive. *)
Definition _upload_then_import (self : Repository) (_client : option Client)
    (file_obj : option string) (name type_id : string)
    (unit_key_fn unit_metadata_fn : option (pyval -> result pyval))
  : Op (Future pyval) :=
  match _client with
  | None => raise DetachedException
  | Some client =>
      let unit_key_fn := unit_key_fn_or_default unit_key_fn in
      let unit_metadata_fn := unit_metadata_fn_or_default unit_metadata_fn in
      let! upload_f := call (EvRequestUpload name) (_request_upload client name) in
      let! upload_id_f := f_map upload_f (fun upload => lift (subscript upload "upload_id")) in
      do! f_map upload_id_f
            (fun upload_id => emit (EvLogUploading name (id self) upload_id)) in
      let! upload_complete_f :=
        match file_obj with
        | None => f_map upload_id_f (fun _ => ret PNone)
        | Some file_obj =>
            f_flat_map upload_id_f
              (fun upload_id =>
                 call (EvDoUploadFile upload_id file_obj name)
                      (_do_upload_file client upload_id file_obj name))
        end in
      let! import_complete_f :=
        f_flat_map upload_complete_f
          (fun upload =>
             let! upload_id := future_result upload_id_f in
             let! unit_key := do! emit (EvUnitKeyFn upload) in lift (unit_key_fn upload) in
             let! unit_metadata :=
               do! emit (EvUnitMetadataFn upload) in lift (unit_metadata_fn upload) in
             call (EvDoImport (id self) upload_id type_id unit_key unit_metadata)
                  (_do_import client (id self) upload_id type_id unit_key unit_metadata)) in
      do! f_map import_complete_f
            (fun _ =>
               let! upload_id := future_result upload_id_f in
               call (EvDeleteUploadRequest upload_id name)
                    (_delete_upload_request client upload_id name)) in
      ret (f_proxy import_complete_f)
  end.

(** ** Notions used in the statements *)

(** The client [client] with another answer to [_delete_upload_request]. *)
Definition with_delete_upload_request (client : Client)
    (answer : pyval -> string -> Future pyval) : Client :=
  {| _search_repo_units := _search_repo_units client;
     _publish_repository := _publish_repository client;
     _do_sync := _do_sync client;
     _do_unassociate := _do_unassociate client;
     _request_upload := _request_upload client;
     _do_upload_file := _do_upload_file client;
     _do_import := _do_import client;
     _delete_upload_request := answer |}.

(** The ids a publish may activate under [options], in order. *)
Definition publish_candidates (options : PublishOptions) : list string :=
  filter (fun c => ~ (c = "docker_web_distributor_name_cli" /\ origin_only_set options = true))
         _PUBLISH_DISTRIBUTORS.

(** The distributors of [self] with id [c], in the order of [distributors]. *)
Definition distributors_with_id (self : Repository) (c : string) : list Distributor :=
  filter (fun d => d_id d = c) (distributors self).


(** [a] is not after [b] in the lexicographic order on strings. *)
Definition str_le (a b : string) : Prop := PySort.le str_lt a b.

(** Both versions have a numeric key, and the key of [a] is not after the
    key of [b] in the component-wise order. *)
Definition version_le (int : string -> option Z) (a b : string) : Prop :=
  exists ka kb,
    version_key int a = Some ka /\ version_key int b = Some kb /\ PySort.le list_lt ka kb.

(** The names, under [notes], of the mutable note fields of Repository. *)
Definition mutable_note_names : list string :=
  [ "product_versions"; "include_in_download_service";
    "include_in_download_service_preview" ].

(** The entry of the note [k] in the payload: present with its raw value,
    or left out. *)
Definition note_entry (self_raw : pyval) (k : string) : option (string * pyval) :=
  match lookup self_raw ("notes." +:+ k) with
  | Present v => Some (k, v)
  | ABSENT => None
  end.

(** What the loop of [_mutable_notes] maintains: [out] has no key but
    ["notes"], and under it a mapping whose keys satisfy [P]. *)
Definition notes_only (P : string -> Prop) (out : option pydict) : Prop :=
  forall o, out = Some o ->
    (forall k, In k (keys o) -> k = "notes") /\
    (forall v, dict_get "notes" o = Some v ->
               exists n, v = PDict n /\ forall k, In k (keys n) -> P k).

(** [k] is the name under [notes] of a mutable note field of the class
    that has a value in the raw form. *)
Definition mutable_note_key (fields : list Field) (self_raw : pyval) (k : string) : Prop :=
  exists fld rest,
    In fld fields /\ mutable fld = true /\
    pulp_field_or_empty fld = "notes." +:+ rest /\
    head (split_dot rest) = Some k /\
    lookup self_raw ("notes." +:+ rest) <> ABSENT.

(** ** Inputs used in the examples *)

(** A client that answers every call with a successful future of [v]. *)
Definition answering_client (v : pyval) : Client :=
  {| _search_repo_units := fun _ _ => inr v;
     _publish_repository := fun _ _ => inr v;
     _do_sync := fun _ _ => inr v;
     _do_unassociate := fun _ _ => inr v;
     _request_upload := fun _ => inr (PDict [("upload_id", PStr "upload-1")]);
     _do_upload_file := fun _ _ _ => inr v;
     _do_import := fun _ _ _ _ _ => inr v;
     _delete_upload_request := fun _ _ => inr v |}.

(** The same client, except that every import fails. *)
Definition failing_import_client (v : pyval) : Client :=
  {| _search_repo_units := fun _ _ => inr v;
     _publish_repository := fun _ _ => inr v;
     _do_sync := fun _ _ => inr v;
     _do_unassociate := fun _ _ => inr v;
     _request_upload := fun _ => inr (PDict [("upload_id", PStr "upload-1")]);
     _do_upload_file := fun _ _ _ => inr v;
     _do_import := fun _ _ _ _ _ => inl (RemoteError "import task failed");
     _delete_upload_request := fun _ _ => inr v |}.

(** A plugin manager whose extensions return [rets], whatever they get. *)
Definition extensions_returning (rets : list (option PublishOptions)) : PluginManager :=
  {| pulp_repository_pre_publish := fun _ _ => rets |}.

Definition yum_distributor : Distributor :=
  {| d_id := "yum_distributor"; repo_id := None; is_rsync := false |}.

Definition docker_distributor : Distributor :=
  {| d_id := "docker_web_distributor_name_cli"; repo_id := None; is_rsync := false |}.

Definition origin_only_options : PublishOptions :=
  {| force := None; clean := None; origin_only := Some true; rsync_extra_args := None |}.

(** ** Repository: further methods *)

(** [distributor(distributor_id)]: [None] when the repository has no
    distributor with that id. *)
Definition distributor (self : Repository) (distributor_id : string) : option Distributor :=
  _distributors_by_id self !! distributor_id.

(** The upload step of [_upload_then_import] once the upload id is known:
    the future it completes with and the call it makes. Without a file it
    completes with [None] and calls nothing. *)
Definition upload_step (client : Client) (file_obj : option string) (name : string)
    (upload_id : pyval) : Future pyval * list Event :=
  match file_obj with
  | None => (inr PNone, [])
  | Some file_obj =>
      (_do_upload_file client upload_id file_obj name,
       [EvDoUploadFile upload_id file_obj name])
  end.

(** ** The converters of [signing_keys]

    The field is stored in Pulp as one string, the key ids joined by
    commas. *)

(** [s.split(sep)] for a separator of one character; never empty. *)
Fixpoint split_on (sep : ascii) (s : string) : list string :=
  match s with
  | EmptyString => [EmptyString]
  | String c s' =>
      if Ascii.eqb c sep then EmptyString :: split_on sep s'
      else match split_on sep s' with
           | h :: t => String c h :: t
           | [] => [String c EmptyString]
           end
  end.

(** [sep.join(l)]. *)
Fixpoint join (sep : string) (l : list string) : string :=
  match l with
  | [] => EmptyString
  | x :: l' =>
      match l' with
      | [] => x
      | _ :: _ => x +:+ sep +:+ join sep l'
      end
  end.

(** The characters [str.strip()] removes, among the ASCII ones: tab to
    carriage return, the four separators 28 to 31, and space. *)
Definition is_whitespace (c : ascii) : bool :=
  ((9 <=? code c) && (code c <=? 13)) || ((28 <=? code c) && (code c <=? 32)).

(** [s.lstrip()]. *)
Fixpoint lstrip (s : string) : string :=
  match s with
  | EmptyString => EmptyString
  | String c s' => if is_whitespace c then lstrip s' else s
  end.

(** [s.rstrip()]: a character is dropped when it is white space and
    nothing is left of what follows it. *)
Fixpoint rstrip (s : string) : string :=
  match s with
  | EmptyString => EmptyString
  | String c s' =>
      match rstrip s' with
      | EmptyString => if is_whitespace c then EmptyString else String c EmptyString
      | r => String c r
      end
  end.

(** [s.strip()]. *)
Definition strip (s : string) : string := rstrip (lstrip s).

(** [pulp_py_converter=lambda sigs: sigs.split(",")]. *)
Definition signing_keys_pulp_py_converter (sigs : string) : list string :=
  split_on "," sigs.

(** [py_pulp_converter=",".join]. *)
Definition signing_keys_py_pulp_converter (keys : list string) : string :=
  join "," keys.

(** [converter=lambda keys: frozenlist([k.strip() for k in keys])]. *)
Definition signing_keys_converter (keys : list string) : list string :=
  strip <$> keys.

(** The string has no comma. *)
Fixpoint comma_free (s : string) : bool :=
  match s with
  | EmptyString => true
  | String c s' => negb (Ascii.eqb c ",") && comma_free s'
  end.

(** ** The converters of the two download-service flags and of
    [eng_product_id] *)

(** [pulp_py_converter=lambda x: x == "True"], for
    [include_in_download_service] and [include_in_download_service_preview]:
    a value that is not a string is never equal to ["True"]. *)
Definition download_service_pulp_py_converter (x : pyval) : bool :=
  match x with
  | PStr s => String.eqb s "True"
  | _ => false
  end.

(** [py_pulp_converter=str], on a bool. *)
Definition py_str_bool (b : bool) : string := if b then "True" else "False".

(** The decimal numeral of an integer: its digits, without leading zeros,
    after a minus sign for a negative number. *)
Definition decimal (n : Z) : string :=
  DecimalString.NilZero.string_of_int (Z.to_int n).

Definition is_digit (c : ascii) : bool := (48 <=? code c) && (code c <=? 57).

Fixpoint all_digits (s : string) : bool :=
  match s with
  | EmptyString => true
  | String c s' => is_digit c && all_digits s'
  end.

(** A plain decimal literal: an optional minus sign, then one ASCII digit
    or more. *)
Definition decimal_literal (s : string) : bool :=
  match s with
  | EmptyString => false
  | String c r =>
      if Ascii.eqb c "-"
      then match r with EmptyString => false | _ => all_digits r end
      else all_digits s
  end.

(** The converters of [eng_product_id] are the builtins
    [pulp_py_converter=int] and [py_pulp_converter=str].  Both depend on the
    interpreter's limit on the number of digits, which can be lifted or set
    to any value from 640 up (4300 unless set): beyond it they raise ValueError,
    which is [None].  They are parameters, assumed to be known only where
    every interpreter agrees: on texts of at most 640 characters. *)

(** [int] returns the integer written by a plain decimal literal of at
    most 640 characters. *)
Definition reads_decimal (int : string -> option Z) : Prop :=
  forall s : string,
    decimal_literal s = true -> (String.length s <= 640)%nat -> int s = int_ascii s.

(** [str] returns the decimal numeral of an integer when the numeral has at
    most 640 characters. *)
Definition writes_decimal (str : Z -> option string) : Prop :=
  forall n : Z, (String.length (decimal n) <= 640)%nat -> str n = Some (decimal n).

(** ** Decoding raw Pulp data

    Raw data is a dict; what it holds under a key is any value. Besides
    the exceptions above, reading raw data can raise AttributeError, when
    [.get] is called on a value that is not a dict; [OtherError] stands for
    any other exception, by the name of its class, as those of the decoders
    that are not part of the sources at hand. *)

Inductive decode_exn : Type :=
| Raised (e : exn)
| AttributeError (attribute : string)
| OtherError (name : string).

Definition decoded (A : Type) : Type := decode_exn + A.

(** [x.get(key) or {}], as a value. *)
Definition get_or_empty (key : string) (x : pydict) : pyval :=
  match dict_get key x with
  | Some v => if truthy v then v else PDict []
  | None => PDict []
  end.

(** [v == s] for a string [s]. *)
Definition is_str (v : pyval) (s : string) : bool :=
  match v with
  | PStr s' => String.eqb s' s
  | _ => false
  end.

(** *** The registry of repository classes and [from_data] *)

(** A class that decodes a repository: Repository, or a subclass of it,
    known by its name. *)
Inductive Class : Type :=
| RepositoryClass
| Subclass (name : string).

(** [REPO_CLASSES]: from a value of notes._repo-type to the subclass
    registered for it, in insertion order. *)
Abbreviation Registry := (list (string * string)).

(** [REPO_CLASSES.get(pulp_type)]. *)
Fixpoint registry_get (pulp_type : string) (r : Registry) : option string :=
  match r with
  | [] => None
  | (k, klass) :: r' => if String.eqb pulp_type k then Some klass else registry_get pulp_type r'
  end.

(** [REPO_CLASSES[pulp_type] = klass]. *)
Fixpoint registry_set (pulp_type klass : string) (r : Registry) : Registry :=
  match r with
  | [] => [(pulp_type, klass)]
  | (k, klass') :: r' =>
      if String.eqb pulp_type k then (pulp_type, klass) :: r'
      else (k, klass') :: registry_set pulp_type klass r'
  end.

(** [repo_type(pulp_type)(klass)]: the decorator of the subclasses of
    Repository; it registers the class and returns it unchanged. *)
Definition repo_type (pulp_type klass : string) (REPO_CLASSES : Registry) : Registry :=
  registry_set pulp_type klass REPO_CLASSES.

(** The loop of [from_data] over [REPO_CLASSES.items()]: the class of the
    first entry whose type is that of the notes, if any. [notes.get] is
    called once per turn, and raises when the notes are not a dict. *)
Fixpoint from_data_loop (notes : pyval) (items : Registry) : decoded (option string) :=
  match items with
  | [] => inr None
  | (notes_type, klass) :: items' =>
      match notes with
      | PDict n =>
          match dict_get "_repo-type" n with
          | Some v =>
              if is_str v notes_type then inr (Some klass)
              else from_data_loop notes items'
          | None => from_data_loop notes items'
          end
      | _ => inl (AttributeError "get")
      end
  end.

(** [cls.from_data(data)], up to the decoder it ends in: the result is the
    class whose inherited decoder ([PulpObject.from_data], which is not part
    of the sources at hand) builds the instance. A subclass inherits
    [from_data], and for it [cls is Repository] is false. *)
Definition from_data (REPO_CLASSES : Registry) (cls : Class) (data : pydict) : decoded Class :=
  match cls with
  | RepositoryClass =>
      let notes := get_or_empty "notes" data in
      match from_data_loop notes REPO_CLASSES with
      | inl e => inl e
      | inr (Some klass) => inr (Subclass klass)
      | inr None => inr RepositoryClass
      end
  | Subclass klass => inr (Subclass klass)
  end.

(** The value of notes._repo-type in raw data, when it is a string. *)
Definition repo_type_of (data : pydict) : option string :=
  match get_or_empty "notes" data with
  | PDict n =>
      match dict_get "_repo-type" n with
      | Some (PStr s) => Some s
      | _ => None
      end
  | _ => None
  end.

(** *** [_data_to_init_args] *)

(** [(dist.get("config") or {}).get(key)]. *)
Definition config_get (dist : pydict) (key : string) : decoded pyval :=
  match get_or_empty "config" dist with
  | PDict config =>
      inr (match dict_get key config with Some v => v | None => PNone end)
  | _ => inl (AttributeError "get")
  end.

(** The first [if] of the loop body: a distributor of type yum or iso
    gives relative_url, None when its config has none. *)
Definition set_relative_url (d : pydict) (type_id : pyval) (out : pydict) : decoded pydict :=
  if is_str type_id "yum_distributor" || is_str type_id "iso_distributor"
  then match config_get d "relative_url" with
       | inl e => inl e
       | inr v => inr (dict_set "relative_url" v out)
       end
  else inr out.

(** The second [if] of the loop body: the distributor cdn_distributor gives
    skip_rsync_repodata, unless its config has no skip_repodata or None. *)
Definition set_skip_rsync_repodata (d : pydict) (i : pyval) (out : pydict) : decoded pydict :=
  if is_str i "cdn_distributor" then
    match config_get d "skip_repodata" with
    | inl e => inl e
    | inr PNone => inr out
    | inr skip_repodata => inr (dict_set "skip_rsync_repodata" skip_repodata out)
    end
  else inr out.

(** The body of the loop of [_data_to_init_args], from the arguments [out]
    collected so far. Subscripting a [dist] that is not a dict raises
    TypeError. *)
Definition _data_to_init_args_body (out : pydict) (dist : pyval) : decoded pydict :=
  match dist with
  | PDict d =>
      match dict_get "distributor_type_id" d with
      | None => inl (Raised (KeyError "distributor_type_id"))
      | Some type_id =>
          match set_relative_url d type_id out with
          | inl e => inl e
          | inr out =>
              match dict_get "id" d with
              | None => inl (Raised (KeyError "id"))
              | Some i => set_skip_rsync_repodata d i out
              end
          end
      end
  | _ => inl (Raised TypeError)
  end.

Fixpoint _data_to_init_args_loop (out : pydict) (dists : list pyval) : decoded pydict :=
  match dists with
  | [] => inr out
  | dist :: dists' =>
      match _data_to_init_args_body out dist with
      | inl e => inl e
      | inr out' => _data_to_init_args_loop out' dists'
      end
  end.

(** What [for dist in data.get("distributors") or []] runs over. A value
    that is true and not a list makes the first turn raise TypeError: a
    number cannot be iterated, and the elements of a string or of a dict are
    strings, which cannot be subscripted by a string. *)
Definition distributors_of (data : pydict) : decoded (list pyval) :=
  match dict_get "distributors" data with
  | None => inr []
  | Some v =>
      if truthy v then
        match v with
        | PList l => inr l
        | _ => inl (Raised TypeError)
        end
      else inr []
  end.

(** [_data_to_init_args(data)].  [inherited] is the outcome, for [data], of
    the inherited [_data_to_init_args] (not part of the sources at hand),
    which is called first: the arguments it returns, or the exception it
    raises.  It decodes every field of [data], the distributors among them,
    so an exception of it ends the method before the loop is reached. *)
Definition _data_to_init_args (inherited : decoded pydict) (data : pydict) : decoded pydict :=
  match inherited with
  | inl e => inl e
  | inr out =>
      match distributors_of data with
      | inl e => inl e
      | inr dists => _data_to_init_args_loop out dists
      end
  end.

(** The distributor sets relative_url: it is of type yum_distributor or
    iso_distributor. *)
Definition sets_relative_url (dist : pyval) : bool :=
  match dist with
  | PDict d =>
      match dict_get "distributor_type_id" d with
      | Some type_id => is_str type_id "yum_distributor" || is_str type_id "iso_distributor"
      | None => false
      end
  | _ => false
  end.

(** The distributor has the id cdn_distributor. *)
Definition is_cdn_distributor (dist : pyval) : bool :=
  match dist with
  | PDict d =>
      match dict_get "id" d with
      | Some i => is_str i "cdn_distributor"
      | None => false
      end
  | _ => false
  end.

(** * Part II: theorems *)

(** ** The stable insertion sort *)

Section SortFacts.
Context {A : Type}.
Variable lt : A -> A -> bool.
Hypothesis lt_asym : forall a b, lt a b = true -> lt b a = false.
Hypothesis le_trans : forall a b c, PySort.le lt a b -> PySort.le lt b c -> PySort.le lt a c.

Lemma insert_perm (x : A) (l : list A) : Permutation (x :: l) (PySort.insert lt x l).
Proof.
  induction l as [|y l IH]; simpl; [reflexivity|].
  destruct (lt y x); [|reflexivity].
  rewrite perm_swap. now apply perm_skip.
Qed.

Lemma sorted_perm (l : list A) : Permutation l (PySort.sorted lt l).
Proof.
  induction l as [|x l IH]; simpl; [constructor|].
  rewrite <- insert_perm. now apply perm_skip.
Qed.

Lemma insert_hd (a x : A) (l : list A) :
  PySort.le lt a x -> HdRel (PySort.le lt) a l -> HdRel (PySort.le lt) a (PySort.insert lt x l).
Proof.
  intros Hax Hal. destruct l as [|y l]; simpl.
  - now constructor.
  - destruct (lt y x); constructor; trivial. now inversion Hal.
Qed.

Lemma insert_sorted (x : A) (l : list A) :
  Sorted (PySort.le lt) l -> Sorted (PySort.le lt) (PySort.insert lt x l).
Proof.
  induction 1 as [|y l Hs IH Hhd]; simpl.
  - repeat constructor.
  - destruct (lt y x) eqn:E.
    + constructor; [exact IH|]. apply insert_hd; [|exact Hhd].
      unfold PySort.le. now apply lt_asym.
    + constructor; [now constructor|]. now constructor.
Qed.

Lemma sorted_Sorted (l : list A) : Sorted (PySort.le lt) (PySort.sorted lt l).
Proof.
  induction l as [|x l IH]; simpl; [constructor|]. now apply insert_sorted.
Qed.

Lemma sorted_StronglySorted (l : list A) :
  StronglySorted (PySort.le lt) (PySort.sorted lt l).
Proof.
  apply Sorted_StronglySorted; [|apply sorted_Sorted].
  intros a b c. apply le_trans.
Qed.

(** Stability: elements that the order does not separate keep the order
    they had in the input. *)
Lemma insert_stable (P : A -> Prop) `{!forall x, Decision (P x)} (x : A) (l : list A) :
  (forall a b, P a -> P b -> lt a b = false) ->
  filter P (PySort.insert lt x l) = filter P (x :: l).
Proof.
  intros HP. induction l as [|y l IH]; simpl; [reflexivity|].
  destruct (lt y x) eqn:E; [|reflexivity].
  rewrite (filter_cons P y), IH, !(filter_cons P x), (filter_cons P y).
  destruct (decide (P x)) as [Hx|Hx], (decide (P y)) as [Hy|Hy]; try reflexivity.
  rewrite (HP y x Hy Hx) in E. discriminate E.
Qed.

Lemma sorted_stable (P : A -> Prop) `{!forall x, Decision (P x)} (l : list A) :
  (forall a b, P a -> P b -> lt a b = false) ->
  filter P (PySort.sorted lt l) = filter P l.
Proof.
  intros HP. induction l as [|x l IH]; simpl; [reflexivity|].
  rewrite insert_stable by exact HP. now rewrite !(filter_cons P x), IH.
Qed.

End SortFacts.

(** ** The two orders *)

Lemma list_lt_asym (a b : list Z) : list_lt a b = true -> list_lt b a = false.
Proof.
  revert b. induction a as [|x a IH]; intros [|y b]; simpl; try congruence.
  destruct (Z.ltb_spec x y), (Z.ltb_spec y x); try congruence; try lia. apply IH.
Qed.

Lemma list_le_trans (a b c : list Z) :
  PySort.le list_lt a b -> PySort.le list_lt b c -> PySort.le list_lt a c.
Proof.
  unfold PySort.le. revert b c.
  induction a as [|x a IH]; intros [|y b] [|z c]; simpl; try congruence.
  destruct (Z.ltb_spec y x), (Z.ltb_spec x y), (Z.ltb_spec z y), (Z.ltb_spec y z),
    (Z.ltb_spec z x), (Z.ltb_spec x z); try congruence; try lia.
  apply IH.
Qed.

Lemma str_lt_asym (a b : string) : str_lt a b = true -> str_lt b a = false.
Proof.
  revert b. induction a as [|x a IH]; intros [|y b]; simpl; try congruence.
  destruct (Z.ltb_spec (code x) (code y)), (Z.ltb_spec (code y) (code x));
    try congruence; try lia. apply IH.
Qed.

Lemma str_le_trans (a b c : string) : str_le a b -> str_le b c -> str_le a c.
Proof.
  unfold str_le, PySort.le. revert b c.
  induction a as [|x a IH]; intros [|y b] [|z c]; simpl; try congruence.
  destruct (Z.ltb_spec (code y) (code x)), (Z.ltb_spec (code x) (code y)),
    (Z.ltb_spec (code z) (code y)), (Z.ltb_spec (code y) (code z)),
    (Z.ltb_spec (code z) (code x)), (Z.ltb_spec (code x) (code z));
    try congruence; try lia.
  apply IH.
Qed.

(** ** [pv_converter] *)

Section PvConverterFacts.

(** The builtin [int], on a string: the integer, or [None] for ValueError. *)
Variable int : string -> option Z.

(** The decorated list pairs every version with its key. *)
Lemma keyed_spec (versions : list string) (keyed : list (list Z * string)) :
  mapM (fun v => k ← version_key int v; Some (k, v)) versions = Some keyed ->
  snd <$> keyed = versions /\
  Forall (fun kv => version_key int (snd kv) = Some (fst kv)) keyed.
Proof.
  intros H. apply mapM_Some in H.
  induction H as [|v kv versions keyed Hv _ [IH1 IH2]]; [split; [reflexivity|constructor]|].
  destruct (version_key int v) as [k|] eqn:E; simpl in Hv; [|discriminate].
  injection Hv as <-. split; simpl; [now f_equal|]. now constructor.
Qed.

(** The keys exist exactly when every component of every version is read
    by [int]. *)
Lemma keyed_is_Some (versions : list string) :
  is_Some (mapM (fun v => k ← version_key int v; Some (k, v)) versions) <->
  (forall v c, In v versions -> In c (split_dot v) -> is_Some (int c)).
Proof.
  rewrite mapM_is_Some, Forall_forall. split.
  - intros H v c Hv Hc. apply list_elem_of_In in Hv. specialize (H v Hv). simpl in H.
    destruct (version_key int v) as [k|] eqn:E; [|now destruct H].
    assert (Hs : is_Some (mapM int (split_dot v))) by (eexists; exact E).
    rewrite mapM_is_Some, Forall_forall in Hs. apply Hs. now apply list_elem_of_In.
  - intros H v Hv. apply list_elem_of_In in Hv. simpl.
    assert (Hs : is_Some (version_key int v)).
    { unfold version_key. rewrite mapM_is_Some, Forall_forall. intros c Hc.
      apply (H v c Hv). now apply list_elem_of_In. }
    destruct Hs as [k ->]. now eexists.
Qed.

Lemma StronglySorted_keyed (keyed : list (list Z * string)) :
  Forall (fun kv => version_key int (snd kv) = Some (fst kv)) keyed ->
  StronglySorted (PySort.le (fun a b => list_lt (fst a) (fst b))) keyed ->
  StronglySorted (version_le int) (snd <$> keyed).
Proof.
  intros Hk Hs. induction Hs as [|kv keyed Hs IH Hall]; simpl; [constructor|].
  inversion Hk as [|? ? Hkv Hk']; subst. constructor; [now apply IH|].
  rewrite Forall_forall in *. intros v Hv. apply list_elem_of_fmap in Hv as [kv' [-> Hin]].
  exists (fst kv), (fst kv'). split; [exact Hkv|].
  split; [exact (proj1 (Forall_forall _ _) Hk' kv' Hin)|].
  exact (proj1 (Forall_forall _ _) Hall kv' Hin).
Qed.

Lemma list_lt_irrefl (a : list Z) : list_lt a a = false.
Proof. induction a as [|x a IH]; simpl; [reflexivity|]. now rewrite Z.ltb_irrefl. Qed.

Lemma filter_keyed (k : list Z) (keyed : list (list Z * string)) :
  Forall (fun kv => version_key int (snd kv) = Some (fst kv)) keyed ->
  filter (fun v => version_key int v = Some k) (snd <$> keyed)
  = snd <$> filter (fun kv => fst kv = k) keyed.
Proof.
  induction 1 as [|kv keyed Hkv _ IH]; [reflexivity|].
  rewrite fmap_cons, !filter_cons, IH.
  destruct (decide (version_key int kv.2 = Some k)) as [H1|H1],
           (decide (kv.1 = k)) as [H2|H2]; try reflexivity; exfalso.
  - apply H2. rewrite Hkv in H1. now injection H1.
  - apply H1. now rewrite Hkv, H2.
Qed.

(** In the numeric case the sort is stable: versions with the same key
    (such as "8.1" and "08.1") keep the order they had in the input. With
    the permutation and the order, this determines the result. *)
Lemma pv_converter_stable (versions : list string) (k : list Z) :
  (forall v c, In v versions -> In c (split_dot v) -> is_Some (int c)) ->
  filter (fun v => version_key int v = Some k) (pv_converter int versions)
  = filter (fun v => version_key int v = Some k) versions.
Proof.
  intros Hall. apply keyed_is_Some in Hall as [keyed E].
  unfold pv_converter. rewrite E.
  destruct (keyed_spec _ _ E) as [Hsnd Hkeys].
  transitivity (filter (fun v => version_key int v = Some k) (snd <$> keyed));
    [|now rewrite Hsnd].
  rewrite !filter_keyed; trivial.
  - f_equal. apply sorted_stable. intros a b -> <-. apply list_lt_irrefl.
  - rewrite Forall_forall in *. intros kv Hkv. apply Hkeys.
    apply list_elem_of_In. apply list_elem_of_In in Hkv.
    eapply Permutation_in; [symmetry; apply sorted_perm|exact Hkv].
Qed.

(** The two modes of the converter. *)
Lemma pv_converter_modes (versions : list string) :
  Permutation versions (pv_converter int versions) /\
  ((forall v c, In v versions -> In c (split_dot v) -> is_Some (int c)) ->
   StronglySorted (version_le int) (pv_converter int versions)) /\
  ((exists v c, In v versions /\ In c (split_dot v) /\ int c = None) ->
   pv_converter int versions = PySort.sorted str_lt versions /\
   StronglySorted str_le (pv_converter int versions)).
Proof.
  pose proof (keyed_is_Some versions) as Hsome.
  unfold pv_converter.
  destruct (mapM _ versions) as [keyed|] eqn:E.
  - destruct (keyed_spec _ _ E) as [Hsnd Hkeys].
    split; [|split].
    + rewrite <- Hsnd at 1. apply Permutation_map, sorted_perm.
    + intros _. apply StronglySorted_keyed.
      * rewrite Forall_forall in *. intros kv Hkv. apply Hkeys.
        apply list_elem_of_In. apply list_elem_of_In in Hkv.
        eapply Permutation_in; [symmetry; apply sorted_perm|exact Hkv].
      * apply sorted_StronglySorted.
        -- intros a b. apply list_lt_asym.
        -- intros a b c. apply list_le_trans.
    + intros (v & c & Hv & Hc & Hnone).
      assert (Hs : is_Some (int c)) by (apply (proj1 Hsome (ltac:(eauto)) v c Hv Hc)).
      rewrite Hnone in Hs. now destruct Hs.
  - split; [|split].
    + apply sorted_perm.
    + intros Hall. apply (proj2 Hsome) in Hall. destruct Hall as [? Hall]. discriminate Hall.
    + intros _. split; [reflexivity|].
      apply sorted_StronglySorted; [apply str_lt_asym|apply str_le_trans].
Qed.

(** C6. Whatever [int] answers: [pv_converter] returns its input
    reordered. When every component (split on ".") of every element is read
    by [int], the result is sorted by the component-wise numeric order; when
    [int] raises ValueError on some component of some element, the result is
    the plain lexicographic sort of the whole list. Since [int] rejects
    "abc", ["8.8","8.10","abc"] gives ["8.10","8.8","abc"]; and since it
    reads "8" as 8 and "10" as 10, ["8.8","8.10"] gives ["8.8","8.10"]. *)
Theorem pv_converter_sorts (versions : list string) :
  Permutation versions (pv_converter int versions) /\
  ((forall v c, In v versions -> In c (split_dot v) -> is_Some (int c)) ->
   StronglySorted (version_le int) (pv_converter int versions)) /\
  ((exists v c, In v versions /\ In c (split_dot v) /\ int c = None) ->
   pv_converter int versions = PySort.sorted str_lt versions /\
   StronglySorted str_le (pv_converter int versions)) /\
  (int "abc" = None ->
   pv_converter int ["8.8"; "8.10"; "abc"] = ["8.10"; "8.8"; "abc"]) /\
  (int "8" = Some 8 -> int "10" = Some 10 ->
   pv_converter int ["8.8"; "8.10"] = ["8.8"; "8.10"]).
Proof.
  destruct (pv_converter_modes versions) as (Hperm & Hnum & Hstr).
  split; [exact Hperm|]. split; [exact Hnum|]. split; [exact Hstr|]. split.
  - intros Habc.
    destruct (pv_converter_modes ["8.8"; "8.10"; "abc"]) as (_ & _ & Hfall).
    rewrite (proj1 (Hfall (ex_intro _ "abc" (ex_intro _ "abc"
               (conj (or_intror (or_intror (or_introl eq_refl)))
                     (conj (or_introl eq_refl) Habc)))))).
    reflexivity.
  - intros H8 H10.
    assert (K1 : version_key int "8.8" = Some [8; 8]).
    { unfold version_key. change (split_dot "8.8") with ["8"; "8"].
      cbn. rewrite H8. reflexivity. }
    assert (K2 : version_key int "8.10" = Some [8; 10]).
    { unfold version_key. change (split_dot "8.10") with ["8"; "10"].
      cbn. rewrite H8, H10. reflexivity. }
    unfold pv_converter. cbn -[version_key PySort.sorted].
    rewrite K1, K2. reflexivity.
Qed.

End PvConverterFacts.

(** The theorem at the reading of ASCII literals, which reads "8" and "10"
    and rejects "abc". *)
Lemma pv_converter_sorts_witness :
  StronglySorted (version_le int_ascii) (pv_converter int_ascii ["8.8"; "8.10"]) /\
  pv_converter int_ascii ["8.8"; "8.10"; "abc"] = ["8.10"; "8.8"; "abc"] /\
  pv_converter int_ascii ["8.8"; "8.10"] = ["8.8"; "8.10"].
Proof.
  split; [|split].
  - apply (proj1 (proj2 (pv_converter_sorts int_ascii ["8.8"; "8.10"]))).
    intros v c Hv Hc. simpl in Hv.
    destruct Hv as [<-|[<-|[]]]; simpl in Hc;
      (destruct Hc as [<-|[<-|[]]]; vm_compute; eexists; reflexivity).
  - apply (proj1 (proj2 (proj2 (proj2 (pv_converter_sorts int_ascii []))))).
    reflexivity.
  - apply (proj2 (proj2 (proj2 (proj2 (pv_converter_sorts int_ascii []))))); reflexivity.
Defined.

(** ** The validator of [distributors] *)

(** The body of the loop never falls through. *)
Lemma check_repo_id_body_exits (self_id : string) (d : Distributor) :
  _check_repo_id_body self_id d <> Next.
Proof.
  unfold _check_repo_id_body. destruct (repo_id d) as [rid|]; [|discriminate].
  destruct (String.eqb rid ""); [discriminate|].
  destruct (String.eqb rid self_id); discriminate.
Qed.

(** Hence only the first distributor is looked at. *)
Lemma check_repo_id_first (self_id : string) (d : Distributor) (ds : list Distributor) :
  _check_repo_id self_id (d :: ds) = _check_repo_id self_id [d].
Proof.
  unfold _check_repo_id. simpl.
  pose proof (check_repo_id_body_exits self_id d) as H.
  destruct (_check_repo_id_body self_id d); [contradiction|reflexivity|reflexivity].
Qed.

(** The first distributor is accepted exactly when its [repo_id] is unset,
    empty or the id of the repository. *)
Lemma check_repo_id_head (self_id : string) (d : Distributor) (ds : list Distributor) :
  _check_repo_id self_id (d :: ds) = inr tt <-> repo_id_ok self_id d = true.
Proof.
  rewrite check_repo_id_first.
  unfold _check_repo_id, _check_repo_id_body, repo_id_ok. simpl.
  destruct (repo_id d) as [rid|]; [|tauto].
  destruct (String.eqb rid ""); [tauto|].
  destruct (String.eqb rid self_id); simpl; [tauto|]. split; discriminate.
Qed.

(** C1. A distributor whose [repo_id] is another repository's is rejected
    when it comes first, and accepted when it comes after a distributor
    that passes the check: the validator returns at the first distributor
    it accepts, so later ones are never checked. *)
Theorem check_repo_id_ignores_later_distributors :
  let good := {| d_id := "yum_distributor"; repo_id := Some "repo1"; is_rsync := false |} in
  let bad := {| d_id := "cdn_distributor"; repo_id := Some "other-repo"; is_rsync := true |} in
  repo_id_ok "repo1" bad = false /\
  Repository_init "repo1" [bad]
  = inl (ValueError "repo_id doesn't match for cdn_distributor. repo_id: repo1, distributor.repo_id: other-repo") /\
  Repository_init "repo1" [good; bad]
  = inr {| id := "repo1"; distributors := [good; bad] |}.
Proof. repeat split. Qed.

(** ** Detached repositories *)

(** C4. On a repository without a client, search_content, publish, sync
    and remove_content raise DetachedException, and nothing is called: the
    trace is empty. *)
Theorem detached_operations_raise (pm : PluginManager) (self : Repository)
    (criteria : option Criteria) (options : PublishOptions)
    (sync_options : option SyncOptions) (type_ids : option (list string)) :
  search_content self None criteria = (inl DetachedException, []) /\
  publish pm self None options = (inl DetachedException, []) /\
  sync self None sync_options = (inl DetachedException, []) /\
  remove_content self None criteria type_ids = (inl DetachedException, []).
Proof. repeat split. Qed.

(** ** [remove_content] *)

(** C7. On an attached repository, remove_content without criteria and
    without type_ids makes one unassociate call, with criteria None (no
    restriction); with a criteria it makes one unassociate call with that
    very criteria, whatever type_ids is. *)
Theorem remove_content_criteria (self : Repository) (client : Client) :
  remove_content self (Some client) None None
  = (inr (_do_unassociate client (id self) None), [EvDoUnassociate (id self) None]) /\
  forall (criteria : Criteria) (type_ids : option (list string)),
    remove_content self (Some client) (Some criteria) type_ids
    = (inr (_do_unassociate client (id self) (Some criteria)),
       [EvDoUnassociate (id self) (Some criteria)]).
Proof. split; [reflexivity|]. intros criteria type_ids. reflexivity. Qed.

(** The deprecated type_ids argument, used when no criteria is given. *)
Lemma remove_content_type_ids (self : Repository) (client : Client) (ids : list string) :
  let criteria := Some (with_field "content_type_id" (in_ ids)) in
  remove_content self (Some client) None (Some ids)
  = (inr (_do_unassociate client (id self) criteria),
     [EvWarn "type_ids is deprecated, use criteria instead";
      EvDoUnassociate (id self) criteria]).
Proof. reflexivity. Qed.

(** ** [sync] *)

Lemma dict_get_omap_notin (name : string) (l : list (string * option pyval)) :
  name ∉ l.*1 ->
  dict_get name (omap (fun '(name, val) => v ← val; Some (name, v)) l) = None.
Proof.
  induction l as [|[n v] l IH]; simpl; [reflexivity|]. intros Hn.
  apply not_elem_of_cons in Hn as [Hne Hn].
  destruct v as [v|]; simpl; [|now apply IH].
  destruct (String.eqb_spec name n); [contradiction|now apply IH].
Qed.

Lemma dict_get_omap (name : string) (val : option pyval) (l : list (string * option pyval)) :
  NoDup l.*1 -> (name, val) ∈ l ->
  dict_get name (omap (fun '(name, val) => v ← val; Some (name, v)) l) = val.
Proof.
  induction l as [|[n v] l IH]; simpl; intros Hnd Hin; [now apply elem_of_nil in Hin|].
  apply NoDup_cons in Hnd as [Hn Hnd].
  apply elem_of_cons in Hin as [Heq|Hin].
  - injection Heq as -> ->. destruct v as [v|]; simpl.
    + now rewrite String.eqb_refl.
    + now apply dict_get_omap_notin.
  - assert (Hne : name <> n).
    { intros ->. apply Hn. apply list_elem_of_fmap. now exists (n, val). }
    destruct v as [v|]; simpl; [|now apply IH].
    destruct (String.eqb_spec name n); [contradiction|now apply IH].
Qed.

(** C10. On an attached repository, sync without options makes one sync
    call whose payload is exactly [feed] with the empty string. With
    options, the payload gives every attribute that is not None its value,
    under its name, and has no key for an attribute that is None. *)
Theorem sync_payload (self : Repository) (client : Client) :
  sync self (Some client) None
  = (inr (_do_sync client (id self) [("feed", PStr "")]),
     [EvDoSync (id self) [("feed", PStr "")]]) /\
  forall options : SyncOptions,
    sync self (Some client) (Some options)
    = (inr (_do_sync client (id self) (asdict_not_none options)),
       [EvDoSync (id self) (asdict_not_none options)]) /\
    forall (name : string) (val : option pyval),
      In (name, val) (SyncOptions_attributes options) ->
      dict_get name (asdict_not_none options) = val.
Proof.
  split; [reflexivity|]. intros options. split; [reflexivity|].
  intros name val Hin. apply dict_get_omap; [|now apply list_elem_of_In].
  unfold SyncOptions_attributes. simpl.
  refine (bool_decide_unpack (NoDup _) _). vm_compute. exact I.
Qed.

(** The theorem at options with a feed and a proxy port only. *)
Lemma sync_payload_witness :
  let options := {| feed := Some "https://example.com/repo"; ssl_validation := None;
                    ssl_ca_cert := None; ssl_client_cert := None; ssl_client_key := None;
                    max_speed := None; proxy_host := None; proxy_port := Some 3128;
                    proxy_username := None; proxy_password := None;
                    basic_auth_username := None; basic_auth_password := None |} in
  dict_get "proxy_port" (asdict_not_none options) = Some (PInt 3128) /\
  dict_get "max_speed" (asdict_not_none options) = None.
Proof.
  pose (self := {| id := "repo1"; distributors := [] |}).
  pose (client := answering_client PNone).
  intros options.
  split; apply (proj2 (proj2 (sync_payload self client) options) _ _); simpl; tauto.
Defined.

(** ** [publish]: the distributors selected *)

Lemma distributors_by_id_fold (ds : list Distributor) (m : gmap string Distributor)
    (c : string) :
  foldl (fun out dist => <[d_id dist := dist]> out) m ds !! c
  = match last (filter (fun d => d_id d = c) ds) with
    | Some d => Some d
    | None => m !! c
    end.
Proof.
  revert m. induction ds as [|d ds IH]; intros m; simpl; [reflexivity|].
  rewrite IH. destruct (decide (d_id d = c)) as [Heq|Hne].
  - rewrite filter_cons_True by exact Heq. rewrite last_cons.
    destruct (last (filter _ ds)); [reflexivity|].
    subst c. apply lookup_insert_eq.
  - rewrite filter_cons_False by exact Hne.
    destruct (last (filter _ ds)); [reflexivity|]. now apply lookup_insert_ne.
Qed.

(** Looking a distributor up by id finds the last one with that id. *)
Lemma distributors_by_id_lookup (self : Repository) (c : string) :
  _distributors_by_id self !! c = last (distributors_with_id self c).
Proof.
  unfold _distributors_by_id, distributors_with_id. rewrite distributors_by_id_fold.
  destruct (last _); [reflexivity|apply lookup_empty].
Qed.

Lemma last_with_id (self : Repository) (c : string) (d : Distributor) :
  last (distributors_with_id self c) = Some d -> d_id d = c /\ d ∈ distributors self.
Proof.
  intros H. apply last_Some_elem_of in H.
  apply list_elem_of_filter in H. exact H.
Qed.

(** The loop of [publish] over any list of candidate ids. *)
Lemma publish_loop (self : Repository) (options : PublishOptions)
    (cands : list string) (acc : list (Distributor * pydict)) :
  foldl (publish_step self options) acc cands
  = acc ++ omap (fun c =>
                   d ← last (distributors_with_id self c);
                   if String.eqb c "docker_web_distributor_name_cli" && origin_only_set options
                   then None
                   else Some (d, _config_for_distributor d options)) cands.
Proof.
  revert acc. induction cands as [|c cands IH]; intros acc; simpl.
  - now rewrite app_nil_r.
  - rewrite IH. unfold publish_step. rewrite distributors_by_id_lookup.
    destruct (last (distributors_with_id self c)) as [d|] eqn:E; simpl; [|reflexivity].
    apply last_with_id in E as [-> _].
    destruct (_ && _); [reflexivity|]. now rewrite <- app_assoc.
Qed.

(** Every selected distributor comes with the configuration derived from
    the options, and the selection is, for each allowed id in order, the
    last distributor with that id. *)
Lemma select_distributors_spec (self : Repository) (options : PublishOptions) :
  select_distributors self options
  = (fun d => (d, _config_for_distributor d options))
      <$> omap (fun c => last (distributors_with_id self c)) (publish_candidates options).
Proof.
  unfold select_distributors. rewrite publish_loop. simpl app.
  unfold publish_candidates, _PUBLISH_DISTRIBUTORS.
  destruct (origin_only_set options); simpl;
    repeat (match goal with
            | |- context [last ?l] => destruct (last l); simpl
            end); reflexivity.
Qed.

(** With distinct ids, at most one distributor has a given id. *)
Lemma distributors_with_id_unique (self : Repository) (c : string) :
  NoDup (d_id <$> distributors self) ->
  distributors_with_id self c = option_list (last (distributors_with_id self c)).
Proof.
  unfold distributors_with_id. induction (distributors self) as [|d ds IH]; simpl.
  - reflexivity.
  - intros Hnd. apply NoDup_cons in Hnd as [Hd Hnd].
    destruct (decide (d_id d = c)) as [Heq|Hne].
    + rewrite filter_cons_True by exact Heq.
      assert (Hnil : filter (fun d => d_id d = c) ds = []).
      { destruct (filter _ ds) as [|d' l] eqn:E; [reflexivity|]. exfalso.
        assert (Hin : d' ∈ filter (fun d => d_id d = c) ds) by (rewrite E; left).
        apply list_elem_of_filter in Hin as [Hc Hin]. apply Hd.
        rewrite Heq, <- Hc. now apply list_elem_of_fmap_2. }
      rewrite Hnil. reflexivity.
    + rewrite filter_cons_False by exact Hne. now apply IH.
Qed.

Lemma select_unique (self : Repository) (cands : list string) :
  NoDup (d_id <$> distributors self) ->
  omap (fun c => last (distributors_with_id self c)) cands
  = cands ≫= distributors_with_id self.
Proof.
  intros Hnd. induction cands as [|c cands IH]; simpl; [reflexivity|].
  rewrite (distributors_with_id_unique self c Hnd) at 2.
  destruct (last (distributors_with_id self c)); simpl; [f_equal|]; exact IH.
Qed.

Lemma distributors_with_id_perm (self self' : Repository) (c : string) :
  NoDup (d_id <$> distributors self) ->
  distributors self' ≡ₚ distributors self ->
  distributors_with_id self' c = distributors_with_id self c.
Proof.
  intros Hnd Hp.
  assert (Hnd' : NoDup (d_id <$> distributors self')) by now rewrite Hp.
  assert (Hf : distributors_with_id self' c ≡ₚ distributors_with_id self c)
    by (unfold distributors_with_id; now rewrite Hp).
  rewrite (distributors_with_id_unique self c Hnd) in *.
  rewrite (distributors_with_id_unique self' c Hnd') in *.
  destruct (last (distributors_with_id self c)); simpl in *.
  - now apply Permutation_singleton_r in Hf.
  - now apply Permutation_nil_r in Hf.
Qed.

(** A publish on an attached repository: the hook, one publish call, and
    the published hook when the call succeeded. *)
Lemma publish_run (pm : PluginManager) (self : Repository) (client : Client)
    (options : PublishOptions) :
  let adopted := adopt_options (pulp_repository_pre_publish pm self options) options in
  let to_publish := select_distributors self adopted in
  let answer := _publish_repository client self to_publish in
  publish pm self (Some client) options
  = (inr answer,
     EvPrePublish self options :: EvPublishRepository self to_publish
       :: match answer with inr _ => [EvPublished self adopted] | inl _ => [] end).
Proof.
  intros adopted to_publish answer.
  cbv [publish bind call emit ret f_map f_proxy app].
  fold adopted. fold to_publish. fold answer. now destruct answer.
Qed.

Lemma publish_candidates_cases (options : PublishOptions) :
  publish_candidates options
  = if origin_only_set options
    then ["iso_distributor"; "yum_distributor"; "cdn_distributor";
          "cdn_distributor_unprotected"]
    else _PUBLISH_DISTRIBUTORS.
Proof. unfold publish_candidates. now destruct (origin_only_set options). Qed.

(** C2, as the code has it. The one publish call of a publish carries, for
    each id of the allow-list in its order, the distributor of the
    repository with that id, the last one when several have it;
    docker_web_distributor_name_cli is left out exactly when origin_only is
    true in the options in force after the pre-publish hook. When the ids
    of the distributors are distinct, these are exactly the distributors
    whose id is allowed, and the order of the repository's list does not
    matter. *)
Theorem publish_selects_by_id (pm : PluginManager) (self : Repository) (client : Client)
    (options : PublishOptions) :
  let adopted := adopt_options (pulp_repository_pre_publish pm self options) options in
  let to_publish := select_distributors self adopted in
  (forall r tp, In (EvPublishRepository r tp) (snd (publish pm self (Some client) options))
                <-> r = self /\ tp = to_publish) /\
  publish_candidates adopted
  = (if origin_only_set adopted
     then ["iso_distributor"; "yum_distributor"; "cdn_distributor";
           "cdn_distributor_unprotected"]
     else _PUBLISH_DISTRIBUTORS) /\
  to_publish.*1
  = omap (fun c => last (distributors_with_id self c)) (publish_candidates adopted) /\
  (NoDup (d_id <$> distributors self) ->
   to_publish.*1 = publish_candidates adopted ≫= distributors_with_id self /\
   forall self' : Repository,
     distributors self' ≡ₚ distributors self ->
     (select_distributors self' adopted).*1 = to_publish.*1).
Proof.
  intros adopted to_publish.
  assert (Hsel : forall s : Repository,
             (select_distributors s adopted).*1
             = omap (fun c => last (distributors_with_id s c)) (publish_candidates adopted)).
  { intros s. rewrite select_distributors_spec, <- list_fmap_compose.
    apply list_fmap_id. }
  split; [|split; [|split]].
  - intros r tp. rewrite publish_run. fold adopted. fold to_publish. simpl. split.
    + intros [H|[H|H]]; [discriminate|injection H; auto|].
      destruct (_publish_repository _ _ _); simpl in H; [tauto|].
      destruct H as [H|[]]. discriminate.
    + intros [-> ->]. auto.
  - apply publish_candidates_cases.
  - apply Hsel.
  - intros Hnd. split.
    + unfold to_publish. rewrite Hsel. now apply select_unique.
    + intros self' Hp. unfold to_publish. rewrite !Hsel.
      apply list_omap_ext, Forall2_same_length_lookup_2; [reflexivity|].
      intros i c c' Hc Hc'. rewrite Hc in Hc'. injection Hc' as <-. f_equal.
      now apply distributors_with_id_perm.
Qed.

(** The theorem at a repository with a docker and a yum distributor,
    published with origin_only: the ids are distinct, and the selection is
    the yum distributor alone. *)
Lemma publish_selects_by_id_witness :
  let self := {| id := "repo1"; distributors := [docker_distributor; yum_distributor] |} in
  NoDup (d_id <$> distributors self) /\
  (select_distributors self origin_only_options).*1
  = publish_candidates origin_only_options ≫= distributors_with_id self /\
  (select_distributors self origin_only_options).*1 = [yum_distributor] /\
  (select_distributors self PublishOptions_default).*1 = [yum_distributor; docker_distributor].
Proof.
  intros self.
  assert (Hnd : NoDup (d_id <$> distributors self)).
  { refine (bool_decide_unpack (NoDup _) _). vm_compute. exact I. }
  split; [exact Hnd|]. split; [|split; vm_compute; reflexivity].
  exact (proj1 (proj2 (proj2 (proj2
           (publish_selects_by_id (extensions_returning []) self (answering_client PNone)
                                  origin_only_options))) Hnd)).
Defined.

(** C2 as stated fails when two distributors share an id: only the last
    one is published, so the selection is not all the distributors with an
    allowed id, and it changes with the order of the list. It also fails
    on the options passed in when an extension replaces them at the
    pre-publish hook: the docker distributor is left out although
    origin_only is unset in the options of the call. *)
Lemma publish_duplicate_ids_counterexample :
  let a := {| d_id := "yum_distributor"; repo_id := None; is_rsync := false |} in
  let b := {| d_id := "yum_distributor"; repo_id := None; is_rsync := true |} in
  let self := {| id := "repo1"; distributors := [a; b] |} in
  let self' := {| id := "repo1"; distributors := [b; a] |} in
  let repo := {| id := "repo2"; distributors := [docker_distributor; yum_distributor] |} in
  Repository_init "repo1" [a; b] = inr self /\
  publish_candidates PublishOptions_default ≫= distributors_with_id self = [a; b] /\
  snd (publish (extensions_returning []) self (Some (answering_client PNone))
               PublishOptions_default)
  = [EvPrePublish self PublishOptions_default;
     EvPublishRepository self [(b, [])];
     EvPublished self PublishOptions_default] /\
  (select_distributors self PublishOptions_default).*1
  <> publish_candidates PublishOptions_default ≫= distributors_with_id self /\
  (select_distributors self' PublishOptions_default).*1
  <> (select_distributors self PublishOptions_default).*1 /\
  origin_only PublishOptions_default = None /\
  snd (publish (extensions_returning [Some origin_only_options]) repo
               (Some (answering_client PNone)) PublishOptions_default)
  = [EvPrePublish repo PublishOptions_default;
     EvPublishRepository repo [(yum_distributor, [])];
     EvPublished repo origin_only_options].
Proof.
  intros a b self self' repo.
  assert (H1 : publish_candidates PublishOptions_default ≫= distributors_with_id self = [a; b])
    by (vm_compute; reflexivity).
  assert (H2 : (select_distributors self PublishOptions_default).*1 = [b])
    by (vm_compute; reflexivity).
  assert (H3 : (select_distributors self' PublishOptions_default).*1 = [a])
    by (vm_compute; reflexivity).
  split; [reflexivity|]. split; [exact H1|]. split; [vm_compute; reflexivity|].
  split; [rewrite H1, H2; discriminate|]. split; [rewrite H2, H3; discriminate|].
  split; [reflexivity|]. vm_compute. reflexivity.
Qed.

(** ** [publish]: the options adopted at the pre-publish hook *)

Lemma adopt_options_first (pre post : list (option PublishOptions))
    (o options : PublishOptions) :
  Forall (fun r => r = None) pre ->
  adopt_options (pre ++ Some o :: post) options = o.
Proof.
  unfold adopt_options. induction 1 as [|r pre -> _ IH]; simpl; [reflexivity|exact IH].
Qed.

Lemma adopt_options_none (hook_rets : list (option PublishOptions)) (options : PublishOptions) :
  Forall (fun r => r = None) hook_rets ->
  adopt_options hook_rets options = options.
Proof.
  unfold adopt_options. induction 1 as [|r pre -> _ IH]; simpl; [reflexivity|exact IH].
Qed.

Lemma select_distributors_config (self : Repository) (options : PublishOptions) :
  Forall (fun p => snd p = _config_for_distributor (fst p) options)
         (select_distributors self options).
Proof.
  rewrite select_distributors_spec. apply Forall_fmap, Forall_true. reflexivity.
Qed.

(** C9. The options in force after the pre-publish hook are the first
    value that is not None among those the extensions returned, and the
    options passed in when every extension returned None or none is
    registered. Every distributor of the publish call is configured from
    them, and they are what the published hook receives; that hook runs
    when the publish call succeeded. *)
Theorem publish_adopts_hook_options (pm : PluginManager) (self : Repository)
    (client : Client) (options : PublishOptions) :
  let hook_rets := pulp_repository_pre_publish pm self options in
  let adopted := adopt_options hook_rets options in
  let to_publish := select_distributors self adopted in
  let answer := _publish_repository client self to_publish in
  (forall pre o post,
     hook_rets = pre ++ Some o :: post -> Forall (fun r => r = None) pre -> adopted = o) /\
  (Forall (fun r => r = None) hook_rets -> adopted = options) /\
  Forall (fun p => snd p = _config_for_distributor (fst p) adopted) to_publish /\
  publish pm self (Some client) options
  = (inr answer,
     EvPrePublish self options :: EvPublishRepository self to_publish
       :: match answer with inr _ => [EvPublished self adopted] | inl _ => [] end).
Proof.
  intros hook_rets adopted to_publish answer. split; [|split; [|split]].
  - intros pre o post Heq Hpre. unfold adopted. rewrite Heq.
    now apply adopt_options_first.
  - intros Hall. now apply adopt_options_none.
  - apply select_distributors_config.
  - apply publish_run.
Qed.

(** The theorem at three extensions, of which the first returns None and
    the other two return options: the second extension's options are
    adopted; and at extensions that all return None. *)
Lemma publish_adopts_hook_options_witness :
  let self := {| id := "repo1"; distributors := [docker_distributor; yum_distributor] |} in
  adopt_options [None; Some origin_only_options; Some PublishOptions_default]
                PublishOptions_default
  = origin_only_options /\
  adopt_options [None; None] origin_only_options = origin_only_options.
Proof.
  intros self. split.
  - exact (proj1 (publish_adopts_hook_options
                    (extensions_returning
                       [None; Some origin_only_options; Some PublishOptions_default])
                    self (answering_client PNone) PublishOptions_default)
                 [None] origin_only_options [Some PublishOptions_default] eq_refl
                 ltac:(repeat constructor)).
  - exact (proj1 (proj2 (publish_adopts_hook_options
                           (extensions_returning [None; None])
                           self (answering_client PNone) origin_only_options))
                 ltac:(repeat constructor)).
Defined.

(** ** [_upload_then_import] *)

(** Unfolds the chain and splits on every answer it depends on. *)
Ltac run_chain client name :=
  cbv [_upload_then_import with_delete_upload_request bind call emit ret lift
       f_map f_flat_map f_proxy future_result app fst snd
       _request_upload _do_upload_file _do_import _delete_upload_request];
  repeat match goal with
    | |- context [match ?x with _ => _ end] =>
        match type of x with
        | result _ => let E := fresh "E" in destruct x eqn:E
        | Future _ => let E := fresh "E" in destruct x eqn:E
        | sum _ _ => let E := fresh "E" in destruct x eqn:E
        | option _ => let E := fresh "E" in destruct x eqn:E
        end
    end.

(** C3, as the code has it. The future handed to the caller is the import
    step's and does not depend on what the delete of the upload slot
    answers. When the chain succeeded, the delete call was made, once,
    right after the import call; when it failed, at the import step or
    before, no delete call was made. *)
Theorem upload_then_import_cleanup (self : Repository) (client : Client)
    (file_obj : option string) (name type_id : string)
    (unit_key_fn unit_metadata_fn : option (pyval -> result pyval)) :
  let run := _upload_then_import self (Some client) file_obj name type_id
                                 unit_key_fn unit_metadata_fn in
  (forall answer : pyval -> string -> Future pyval,
     _upload_then_import self (Some (with_delete_upload_request client answer))
                         file_obj name type_id unit_key_fn unit_metadata_fn = run) /\
  (exists f : Future pyval, fst run = inr f) /\
  (forall v : pyval,
     fst run = inr (inr v) ->
     exists pre upload_id unit_key unit_metadata,
       snd run = pre ++ [EvDoImport (id self) upload_id type_id unit_key unit_metadata;
                         EvDeleteUploadRequest upload_id name] /\
       _do_import client (id self) upload_id type_id unit_key unit_metadata = inr v /\
       forall u n, ~ In (EvDeleteUploadRequest u n) pre) /\
  (forall e : exn,
     fst run = inr (inl e) ->
     forall u n, ~ In (EvDeleteUploadRequest u n) (snd run)).
Proof.
  intros run. subst run. split; [|split; [|split]].
  - intros answer. destruct client. run_chain client name; reflexivity.
  - destruct client. run_chain client name; eexists; reflexivity.
  - intros v. destruct client. run_chain client name; intros H; try discriminate H.
    + injection H as <-. eexists [_; _; _; _; _], _, _, _.
      split; [reflexivity|]. split; [eassumption|].
      intros u n Hin. simpl in Hin. intuition discriminate.
    + injection H as <-. eexists [_; _; _; _], _, _, _.
      split; [reflexivity|]. split; [eassumption|].
      intros u n Hin. simpl in Hin. intuition discriminate.
  - intros e. destruct client. run_chain client name; intros H; try discriminate H;
      intros u n Hin; simpl in Hin; intuition discriminate.
Qed.

(** The theorem at an upload of a file that succeeds at every step, and at
    one whose import fails. *)
Lemma upload_then_import_cleanup_witness :
  let self := {| id := "repo1"; distributors := [] |} in
  let run := _upload_then_import self (Some (answering_client (PStr "done")))
                                 (Some "/tmp/file.rpm") "file.rpm" "rpm" None None in
  let failed := _upload_then_import self (Some (failing_import_client PNone))
                                    (Some "/tmp/file.rpm") "file.rpm" "rpm" None None in
  fst run = inr (inr (PStr "done")) /\
  (exists pre upload_id unit_key unit_metadata,
     snd run = pre ++ [EvDoImport "repo1" upload_id "rpm" unit_key unit_metadata;
                       EvDeleteUploadRequest upload_id "file.rpm"] /\
     _do_import (answering_client (PStr "done")) "repo1" upload_id "rpm" unit_key unit_metadata
     = inr (PStr "done") /\
     forall u n, ~ In (EvDeleteUploadRequest u n) pre) /\
  fst failed = inr (inl (RemoteError "import task failed")) /\
  (forall u n, ~ In (EvDeleteUploadRequest u n) (snd failed)).
Proof.
  intros self run failed. split; [reflexivity|]. split; [|split; [reflexivity|]].
  - exact (proj1 (proj2 (proj2
             (upload_then_import_cleanup self (answering_client (PStr "done"))
                (Some "/tmp/file.rpm") "file.rpm" "rpm" None None)))
             (PStr "done") eq_refl).
  - exact (proj2 (proj2 (proj2
             (upload_then_import_cleanup self (failing_import_client PNone)
                (Some "/tmp/file.rpm") "file.rpm" "rpm" None None)))
             (RemoteError "import task failed") eq_refl).
Defined.

(** C3 as stated fails when the import fails: the import call was made and
    its future failed, and no delete of the upload slot follows. *)
Lemma upload_then_import_failed_import_counterexample :
  let self := {| id := "repo1"; distributors := [] |} in
  let run := _upload_then_import self (Some (failing_import_client PNone))
                                 (Some "/tmp/file.rpm") "file.rpm" "rpm" None None in
  fst run = inr (inl (RemoteError "import task failed")) /\
  snd run = [EvRequestUpload "file.rpm";
             EvLogUploading "file.rpm" "repo1" (PStr "upload-1");
             EvDoUploadFile (PStr "upload-1") "/tmp/file.rpm" "file.rpm";
             EvUnitKeyFn PNone;
             EvUnitMetadataFn PNone;
             EvDoImport "repo1" (PStr "upload-1") "rpm" (PDict []) PNone] /\
  ~ exists u n, In (EvDeleteUploadRequest u n) (snd run).
Proof.
  intros self run. split; [reflexivity|]. split; [reflexivity|].
  intros (u & n & Hin). simpl in Hin. intuition discriminate.
Qed.

(** C8. In a chain without a file, no upload-file call is made; the two
    derivation functions are called with None only; an import call is
    made with what they return for None; and when the upload id is known
    and both functions return, the import call is made, right after the
    upload request and the log line. *)
Theorem upload_then_import_without_file (self : Repository) (client : Client)
    (name type_id : string)
    (unit_key_fn unit_metadata_fn : option (pyval -> result pyval)) :
  let run := _upload_then_import self (Some client) None name type_id
                                 unit_key_fn unit_metadata_fn in
  (forall u f n, ~ In (EvDoUploadFile u f n) (snd run)) /\
  (forall u, In (EvUnitKeyFn u) (snd run) -> u = PNone) /\
  (forall u, In (EvUnitMetadataFn u) (snd run) -> u = PNone) /\
  (forall r u t unit_key unit_metadata,
     In (EvDoImport r u t unit_key unit_metadata) (snd run) ->
     In (EvUnitKeyFn PNone) (snd run) /\
     In (EvUnitMetadataFn PNone) (snd run) /\
     unit_key_fn_or_default unit_key_fn PNone = inr unit_key /\
     unit_metadata_fn_or_default unit_metadata_fn PNone = inr unit_metadata) /\
  (forall upload upload_id unit_key unit_metadata,
     _request_upload client name = inr upload ->
     subscript upload "upload_id" = inr upload_id ->
     unit_key_fn_or_default unit_key_fn PNone = inr unit_key ->
     unit_metadata_fn_or_default unit_metadata_fn PNone = inr unit_metadata ->
     exists post,
       snd run = [EvRequestUpload name;
                  EvLogUploading name (id self) upload_id;
                  EvUnitKeyFn PNone;
                  EvUnitMetadataFn PNone;
                  EvDoImport (id self) upload_id type_id unit_key unit_metadata] ++ post).
Proof.
  intros run. subst run. split; [|split; [|split; [|split]]].
  - intros u f n. destruct client. run_chain client name;
      intros Hin; simpl in Hin; intuition discriminate.
  - intros u. destruct client. run_chain client name;
      intros Hin; simpl in Hin; intuition (try discriminate; congruence).
  - intros u. destruct client. run_chain client name;
      intros Hin; simpl in Hin; intuition (try discriminate; congruence).
  - intros r u t unit_key unit_metadata. destruct client. run_chain client name;
      intros Hin; simpl in Hin;
      repeat match goal with
             | H : _ \/ _ |- _ => destruct H
             | H : False |- _ => destruct H
             | H : _ = _ |- _ => discriminate H
             end;
      match goal with
      | H : EvDoImport _ _ _ _ _ = EvDoImport _ _ _ _ _ |- _ =>
          injection H as <- <- <- <- <-
      end; simpl; auto 10.
  - intros upload upload_id unit_key unit_metadata Hup Hid Hk Hm.
    destruct client. cbv [_request_upload] in Hup.
    cbv [_upload_then_import bind call emit ret lift f_map f_flat_map f_proxy
         future_result app fst snd _request_upload _do_import _delete_upload_request].
    rewrite Hup, Hid, Hk, Hm.
    destruct (_do_import0 (id self) upload_id type_id unit_key unit_metadata);
      eexists; reflexivity.
Qed.

(** The theorem at an upload without a file and with the default
    derivation functions. *)
Lemma upload_then_import_without_file_witness :
  let self := {| id := "repo1"; distributors := [] |} in
  let run := _upload_then_import self (Some (answering_client PNone))
                                 None "advisory" "erratum" None None in
  (exists post,
     snd run = [EvRequestUpload "advisory";
                EvLogUploading "advisory" "repo1" (PStr "upload-1");
                EvUnitKeyFn PNone;
                EvUnitMetadataFn PNone;
                EvDoImport "repo1" (PStr "upload-1") "erratum" (PDict []) PNone] ++ post) /\
  (In (EvUnitKeyFn PNone) (snd run) /\
   In (EvUnitMetadataFn PNone) (snd run) /\
   unit_key_fn_or_default None PNone = inr (PDict []) /\
   unit_metadata_fn_or_default None PNone = inr PNone).
Proof.
  intros self run.
  pose proof (upload_then_import_without_file self (answering_client PNone)
                "advisory" "erratum" None None) as (_ & _ & _ & Himport & Hrun).
  split.
  - exact (Hrun _ _ _ _ eq_refl eq_refl eq_refl eq_refl).
  - apply (Himport "repo1" (PStr "upload-1") "erratum" (PDict []) PNone).
    simpl. auto 10.
Defined.

(** ** The mutable notes *)

Lemma mutable_note_fields_Repository :
  _mutable_note_fields Repository_fields
  = [ mkField "product_versions" (Some "notes.product_versions") true;
      mkField "include_in_download_service"
              (Some "notes.include_in_download_service") true;
      mkField "include_in_download_service_preview"
              (Some "notes.include_in_download_service_preview") true ].
Proof. vm_compute. reflexivity. Qed.

(** The payload, entry by entry. *)
Lemma mutable_notes_Repository (self_raw : pyval) :
  _mutable_notes Repository_fields self_raw
  = Some (PDict (omap (note_entry self_raw) mutable_note_names)).
Proof.
  unfold _mutable_notes. rewrite mutable_note_fields_Repository.
  cbv [foldl _mutable_notes_step pulp_field_or_empty pulp_field mkField mbind option_bind
       lookup dict_put mutable_note_names omap list_omap note_entry].
  change (split_dot ("notes." +:+ "product_versions")) with ["notes"; "product_versions"].
  change (split_dot ("notes." +:+ "include_in_download_service"))
    with ["notes"; "include_in_download_service"].
  change (split_dot ("notes." +:+ "include_in_download_service_preview"))
    with ["notes"; "include_in_download_service_preview"].
  change (split_dot "notes.product_versions") with ["notes"; "product_versions"].
  change (split_dot "notes.include_in_download_service")
    with ["notes"; "include_in_download_service"].
  change (split_dot "notes.include_in_download_service_preview")
    with ["notes"; "include_in_download_service_preview"].
  cbn [lookup_path].
  destruct self_raw as [| | | | |d]; try reflexivity.
  destruct (dict_get "notes" d) as [[| | | | |n]|]; try reflexivity.
  destruct (dict_get "product_versions" n);
    destruct (dict_get "include_in_download_service" n);
    destruct (dict_get "include_in_download_service_preview" n); reflexivity.
Qed.

Lemma dict_get_omap_entry (f : string -> option (string * pyval)) (names : list string)
    (k : string) (v : pyval) :
  (forall n e, f n = Some e -> fst e = n) ->
  dict_get k (omap f names) = Some v -> In k names /\ f k = Some (k, v).
Proof.
  intros Hf. induction names as [|n names IH]; simpl; [discriminate|].
  destruct (f n) as [[n' v']|] eqn:E.
  - pose proof (Hf _ _ E) as Hn. simpl in Hn. subst n'. simpl.
    destruct (String.eqb_spec k n) as [->|Hne].
    + intros [= ->]. auto.
    + intros H. destruct (IH H). auto.
  - intros H. destruct (IH H). auto.
Qed.

Lemma dict_get_omap_entry_2 (f : string -> option (string * pyval)) (names : list string)
    (k : string) (v : pyval) :
  (forall n e, f n = Some e -> fst e = n) ->
  In k names -> f k = Some (k, v) -> dict_get k (omap f names) = Some v.
Proof.
  intros Hf. induction names as [|n names IH]; simpl; [tauto|].
  intros Hin Hk. destruct (String.eqb_spec k n) as [->|Hne].
  - rewrite Hk. simpl. now rewrite String.eqb_refl.
  - destruct Hin as [->|Hin]; [contradiction|].
    destruct (f n) as [[n' v']|] eqn:E; simpl; [|now apply IH].
    pose proof (Hf _ _ E) as Hn. simpl in Hn. subst n'.
    destruct (String.eqb_spec k n); [contradiction|now apply IH].
Qed.

Lemma note_entry_name (self_raw : pyval) (n : string) (e : string * pyval) :
  note_entry self_raw n = Some e -> fst e = n.
Proof.
  unfold note_entry. destruct (lookup _ _); [discriminate|]. now intros [= <-].
Qed.

Lemma note_entry_Some (self_raw : pyval) (k : string) (v : pyval) :
  note_entry self_raw k = Some (k, v) <-> lookup self_raw ("notes." +:+ k) = Present v.
Proof.
  unfold note_entry. destruct (lookup _ _); split; try discriminate; congruence.
Qed.

(** C5. For every raw form of a Repository, the mutable notes are a
    mapping whose entries are exactly the mutable note fields that have a
    value in the raw form, each under its name and with that value: a key
    that is not the name of a mutable note field, or whose field is
    absent, never appears. *)
Theorem mutable_notes_only_mutable_fields (self_raw : pyval) :
  exists notes : pydict,
    _mutable_notes Repository_fields self_raw = Some (PDict notes) /\
    (forall k v, dict_get k notes = Some v <->
                 In k mutable_note_names /\ lookup self_raw ("notes." +:+ k) = Present v) /\
    (forall k, In k (keys notes) ->
               exists fld, In fld Repository_fields /\ mutable fld = true /\
                           pulp_field fld = Some ("notes." +:+ k) /\
                           lookup self_raw ("notes." +:+ k) <> ABSENT).
Proof.
  exists (omap (note_entry self_raw) mutable_note_names).
  split; [apply mutable_notes_Repository|]. split.
  - intros k v. rewrite <- note_entry_Some. split.
    + apply dict_get_omap_entry, note_entry_name.
    + intros [Hin Hk]. now apply dict_get_omap_entry_2; [apply note_entry_name| |].
  - intros k Hk. apply list_elem_of_In, list_elem_of_fmap in Hk as ([k' v] & -> & Hin).
    apply list_elem_of_omap in Hin as (n & Hn & He).
    pose proof (note_entry_name _ _ _ He) as Hname. simpl in Hname. subst n.
    apply note_entry_Some in He. simpl.
    assert (Hfld : exists fld, In fld Repository_fields /\ mutable fld = true /\
                               pulp_field fld = Some ("notes." +:+ k')).
    { exists (mkField k' (Some ("notes." +:+ k')) true).
      split; [|split; reflexivity].
      apply list_elem_of_In in Hn. simpl in Hn.
      destruct Hn as [<-|[<-|[<-|[]]]]; vm_compute; auto 20. }
    destruct Hfld as (fld & H1 & H2 & H3). exists fld. repeat split; trivial.
    rewrite He. discriminate.
Qed.

(** *** Any class: the keys of the payload come from mutable note fields

    The payload of a subclass, whose table of fields extends Repository's,
    obeys the same rule. *)

Lemma prefix_append (s1 s2 : string) :
  String.prefix s1 s2 = true -> exists rest, s2 = s1 +:+ rest.
Proof.
  revert s2. induction s1 as [|a s1 IH]; intros s2; simpl.
  - intros _. now exists s2.
  - destruct s2 as [|b s2]; simpl; [discriminate|].
    destruct (ascii_dec a b) as [->|]; [|discriminate].
    intros H. destruct (IH _ H) as [rest ->]. now exists rest.
Qed.

Lemma split_dot_cons (s : string) : exists h t, split_dot s = h :: t.
Proof.
  induction s as [|c s (h & t & IH)]; simpl; [now eexists _, _|].
  destruct (Ascii.eqb c "."); [now eexists _, _|]. rewrite IH. now eexists _, _.
Qed.

Lemma dict_set_keys (k h : string) (v : pyval) (d : pydict) :
  In k (keys (dict_set h v d)) -> k = h \/ In k (keys d).
Proof.
  induction d as [|[k' v'] d IH]; simpl.
  - intros [<-|[]]. now left.
  - destruct (String.eqb_spec h k') as [->|Hne]; simpl.
    + intros [<-|Hin]; auto.
    + intros [<-|Hin]; auto. destruct (IH Hin); auto.
Qed.

Lemma dict_get_set (k : string) (v : pyval) (d : pydict) :
  dict_get k (dict_set k v d) = Some v.
Proof.
  induction d as [|[k' v'] d IH]; simpl.
  - now rewrite String.eqb_refl.
  - destruct (String.eqb_spec k k') as [->|Hne]; simpl.
    + now rewrite String.eqb_refl.
    + destruct (String.eqb_spec k k'); [contradiction|exact IH].
Qed.

Lemma dict_put_path_nested (out : pydict) (k h : string) (t : list string) (v : pyval) :
  dict_put_path out (k :: h :: t) v
  = match dict_get k out with
    | None => sub ← dict_put_path [] (h :: t) v; Some (dict_set k (PDict sub) out)
    | Some (PDict inner) =>
        sub ← dict_put_path inner (h :: t) v; Some (dict_set k (PDict sub) out)
    | Some _ => None
    end.
Proof. reflexivity. Qed.

(** Putting a value at a path adds at most the first key of the path. *)
Lemma dict_put_path_keys (d d' : pydict) (h : string) (t : list string) (v : pyval) :
  dict_put_path d (h :: t) v = Some d' ->
  forall k, In k (keys d') -> k = h \/ In k (keys d).
Proof.
  simpl. destruct t as [|h' t].
  - intros [= <-] k. apply dict_set_keys.
  - destruct (dict_get h d) as [[| | | | |inner]|]; try discriminate;
      destruct (dict_put_path _ (h' :: t) v) as [sub|]; try discriminate;
      intros [= <-] k; apply dict_set_keys.
Qed.

Lemma mutable_notes_step_inv (fields : list Field) (self_raw : pyval)
    (out : option pydict) (fld : Field) :
  In fld fields ->
  String.prefix "notes." (pulp_field_or_empty fld) = true ->
  mutable fld = true ->
  notes_only (mutable_note_key fields self_raw) out ->
  notes_only (mutable_note_key fields self_raw) (_mutable_notes_step self_raw out fld).
Proof.
  intros Hin Hpre Hmut Hinv. apply prefix_append in Hpre as [rest Hrest].
  unfold _mutable_notes_step. destruct out as [o|]; simpl; [|intros ? [=]].
  destruct (Hinv o eq_refl) as [Hkeys Hnotes].
  destruct (lookup self_raw (pulp_field_or_empty fld)) as [|v] eqn:El; [exact Hinv|].
  assert (HP : forall h t, split_dot rest = h :: t ->
                           mutable_note_key fields self_raw h).
  { intros h t Hs. exists fld, rest. rewrite Hs, <- Hrest, El. repeat split; trivial.
    discriminate. }
  unfold dict_put. rewrite Hrest.
  change (split_dot ("notes." +:+ rest)) with ("notes" :: split_dot rest).
  destruct (split_dot_cons rest) as (h & t & Hs). rewrite Hs. specialize (HP h t Hs).
  intros o'. rewrite dict_put_path_nested.
  destruct (dict_get "notes" o) as [nv|] eqn:En.
  - destruct (Hnotes nv eq_refl) as (n & -> & Hn).
    destruct (dict_put_path n (h :: t) v) as [sub|] eqn:Es; simpl; [|discriminate].
    intros [= <-]. split.
    + intros k Hk. apply dict_set_keys in Hk as [->|Hk]; auto.
    + intros v'. rewrite dict_get_set. intros [= <-]. exists sub. split; [reflexivity|].
      intros k Hk. destruct (dict_put_path_keys _ _ _ _ _ Es k Hk) as [->|Hk']; auto.
  - destruct (dict_put_path [] (h :: t) v) as [sub|] eqn:Es; simpl; [|discriminate].
    intros [= <-]. split.
    + intros k Hk. apply dict_set_keys in Hk as [->|Hk]; auto.
    + intros v'. rewrite dict_get_set. intros [= <-]. exists sub. split; [reflexivity|].
      intros k Hk. destruct (dict_put_path_keys _ _ _ _ _ Es k Hk) as [->|[]]; auto.
Qed.

Lemma mutable_notes_loop_inv (fields : list Field) (self_raw : pyval) (l : list Field)
    (out : option pydict) :
  (forall fld, In fld l ->
     In fld fields /\ String.prefix "notes." (pulp_field_or_empty fld) = true /\
     mutable fld = true) ->
  notes_only (mutable_note_key fields self_raw) out ->
  notes_only (mutable_note_key fields self_raw) (foldl (_mutable_notes_step self_raw) out l).
Proof.
  revert out. induction l as [|fld l IH]; intros out Hl Hinv; simpl; [exact Hinv|].
  apply IH; [intros f Hf; apply Hl; now right|].
  destruct (Hl fld (or_introl eq_refl)) as (H1 & H2 & H3).
  now apply mutable_notes_step_inv.
Qed.

(** For the fields of any class and any raw form: when [_mutable_notes]
    returns, it returns a mapping, and every key of it is the name of a
    mutable note field of the class with a value in the raw form. *)
Lemma mutable_notes_keys_any_class (fields : list Field) (self_raw payload : pyval) :
  _mutable_notes fields self_raw = Some payload ->
  exists notes, payload = PDict notes /\
                forall k, In k (keys notes) -> mutable_note_key fields self_raw k.
Proof.
  unfold _mutable_notes.
  pose proof (mutable_notes_loop_inv fields self_raw (_mutable_note_fields fields) (Some []))
    as Hinv.
  destruct (foldl _ _ _) as [out|]; simpl; [|discriminate].
  intros [= <-].
  destruct (Hinv) with (o := out) as [_ Hnotes]; trivial.
  - intros fld Hin. unfold _mutable_note_fields in Hin.
    apply list_elem_of_In, list_elem_of_filter in Hin as [Hd Hin].
    apply bool_decide_unpack in Hd as [H1 H2]. apply list_elem_of_In in Hin. auto.
  - intros o [= <-]. split; [intros k []|]. simpl. discriminate.
  - destruct (dict_get "notes" out) as [v|]; [|exists []; split; [reflexivity|intros k []]].
    destruct (Hnotes v eq_refl) as (n & -> & Hn).
    destruct n as [|e n]; simpl; [exists []; split; [reflexivity|intros k []]|].
    now exists (e :: n).
Qed.

Lemma dict_get_keys (k : string) (d : pydict) :
  In k (keys d) -> exists v, dict_get k d = Some v.
Proof.
  induction d as [|[k' v'] d IH]; simpl; [tauto|].
  intros [->|Hin]; [rewrite String.eqb_refl; eauto|].
  destruct (String.eqb k k'); eauto.
Qed.

(** The theorem at a raw form with a mutable note, an immutable note and a
    field outside the notes: only the mutable note is in the payload. *)
Lemma mutable_notes_only_mutable_fields_witness :
  let self_raw :=
    PDict [("id", PStr "repo1");
           ("notes", PDict [("arch", PStr "x86_64");
                            ("include_in_download_service", PStr "True")])] in
  exists notes : pydict,
    _mutable_notes Repository_fields self_raw = Some (PDict notes) /\
    dict_get "include_in_download_service" notes = Some (PStr "True") /\
    ~ In "arch" (keys notes) /\
    ~ In "id" (keys notes).
Proof.
  intros self_raw.
  destruct (mutable_notes_only_mutable_fields self_raw) as (notes & Hrun & Hget & Hkeys).
  exists notes. split; [exact Hrun|]. split; [|split].
  - apply Hget. split; [simpl; auto|reflexivity].
  - intros Hin. apply dict_get_keys in Hin as [v Hv]. apply Hget in Hv as [Hv _].
    simpl in Hv. intuition discriminate.
  - intros Hin. destruct (Hkeys _ Hin) as (fld & _ & _ & _ & Habs). now apply Habs.
Defined.

(** * Part III: further properties of the code *)

(** ** The validator of [distributors], in general *)

(** X1. An empty list of distributors is accepted; otherwise the validator's
    verdict is that on the first distributor alone: the distributors after
    it never change the outcome. *)
Theorem check_repo_id_decided_by_first (self_id : string) :
  _check_repo_id self_id [] = inr tt /\
  forall (d : Distributor) (ds ds' : list Distributor),
    _check_repo_id self_id (d :: ds) = _check_repo_id self_id (d :: ds') /\
    (_check_repo_id self_id (d :: ds) = inr tt <-> repo_id_ok self_id d = true) /\
    (repo_id_ok self_id d = false ->
     exists rid, repo_id d = Some rid /\
       _check_repo_id self_id (d :: ds)
       = inl (ValueError ("repo_id doesn't match for " +:+ d_id d
                          +:+ ". repo_id: " +:+ self_id
                          +:+ ", distributor.repo_id: " +:+ rid))).
Proof.
  split; [reflexivity|]. intros d ds ds'. split; [|split].
  - now rewrite (check_repo_id_first self_id d ds), (check_repo_id_first self_id d ds').
  - apply check_repo_id_head.
  - unfold repo_id_ok, _check_repo_id, _check_repo_id_body. simpl.
    destruct (repo_id d) as [rid|]; [|discriminate].
    intros H. exists rid. split; [reflexivity|].
    destruct (String.eqb rid ""); [discriminate|].
    destruct (String.eqb rid self_id); [discriminate|reflexivity].
Qed.

(** The theorem at a distributor of another repository, first in the list. *)
Lemma check_repo_id_decided_by_first_witness :
  let bad := {| d_id := "cdn_distributor"; repo_id := Some "other-repo"; is_rsync := true |} in
  exists rid, repo_id bad = Some rid /\
    _check_repo_id "repo1" [bad; yum_distributor]
    = inl (ValueError ("repo_id doesn't match for " +:+ d_id bad
                       +:+ ". repo_id: " +:+ "repo1"
                       +:+ ", distributor.repo_id: " +:+ rid)).
Proof.
  intros bad.
  exact (proj2 (proj2 (proj2 (check_repo_id_decided_by_first "repo1") bad
                             [yum_distributor] [])) eq_refl).
Defined.

(** ** Looking a distributor up *)

(** X2. [distributor(id)] returns a distributor of the repository that has this
    id; it returns None exactly when no distributor has it; and when
    several have it, it returns the last of them. *)
Theorem distributor_lookup (self : Repository) (i : string) :
  (forall d, distributor self i = Some d -> In d (distributors self) /\ d_id d = i) /\
  (distributor self i = None <-> ~ In i (d_id <$> distributors self)) /\
  (forall before d after,
     distributors self = before ++ d :: after -> d_id d = i ->
     ~ In i (d_id <$> after) ->
     distributor self i = Some d).
Proof.
  unfold distributor. rewrite distributors_by_id_lookup. split; [|split].
  - intros d H. apply last_with_id in H as [H1 H2]. split; [|exact H1].
    now apply list_elem_of_In.
  - rewrite last_None. unfold distributors_with_id. split.
    + intros Hnil Hin. apply list_elem_of_In, list_elem_of_fmap in Hin as (d & -> & Hd).
      now apply (filter_nil_not_elem_of _ _ d Hnil).
    + intros Hno. destruct (filter _ _) as [|d l] eqn:E; [reflexivity|]. exfalso.
      assert (Hd : d ∈ filter (fun d => d_id d = i) (distributors self))
        by (rewrite E; left).
      apply list_elem_of_filter in Hd as [<- Hd]. apply Hno.
      now apply list_elem_of_In, list_elem_of_fmap_2.
  - intros before d after Heq Hid Hafter. unfold distributors_with_id.
    rewrite Heq, filter_app, filter_cons_True by exact Hid.
    assert (Hnil : filter (fun d => d_id d = i) after = []).
    { destruct (filter _ after) as [|d' l] eqn:E; [reflexivity|]. exfalso.
      assert (Hd : d' ∈ filter (fun d => d_id d = i) after) by (rewrite E; left).
      apply list_elem_of_filter in Hd as [<- Hd]. apply Hafter.
      now apply list_elem_of_In, list_elem_of_fmap_2. }
    rewrite Hnil. apply last_snoc.
Qed.

(** The theorem at a repository with two distributors of the same id. *)
Lemma distributor_lookup_witness :
  let a := {| d_id := "yum_distributor"; repo_id := None; is_rsync := false |} in
  let b := {| d_id := "yum_distributor"; repo_id := None; is_rsync := true |} in
  let self := {| id := "repo1"; distributors := [a; docker_distributor; b] |} in
  distributor self "yum_distributor" = Some b /\
  (In b (distributors self) /\ d_id b = "yum_distributor").
Proof.
  intros a b self.
  pose proof (proj2 (proj2 (distributor_lookup self "yum_distributor"))
                [a; docker_distributor] b [] eq_refl eq_refl (fun H => H)) as Hlast.
  split; [exact Hlast|].
  exact (proj1 (distributor_lookup self "yum_distributor") b Hlast).
Defined.

(** ** The configuration of a distributor *)

(** X3. The configuration derived for a distributor holds force_full exactly
    when force is set; delete, content_units_only and rsync_extra_args only
    for an rsync distributor, each exactly when clean, origin_only or
    rsync_extra_args is set; and never any other key. An option that is
    unset leaves its key out. *)
Theorem config_for_distributor_keys (d : Distributor) (options : PublishOptions) :
  let config := _config_for_distributor d options in
  dict_get "force_full" config = PBool <$> force options /\
  dict_get "delete" config = (if is_rsync d then PBool <$> clean options else None) /\
  dict_get "content_units_only" config
  = (if is_rsync d then PBool <$> origin_only options else None) /\
  dict_get "rsync_extra_args" config
  = (if is_rsync d then PStr_list <$> rsync_extra_args options else None) /\
  NoDup (keys config) /\
  forall k, In k (keys config) ->
            In k ["delete"; "content_units_only"; "rsync_extra_args"; "force_full"].
Proof.
  unfold _config_for_distributor.
  destruct d as [i r rs], options as [f c o a]; simpl.
  assert (Hnd : forall l : list string, bool_decide (NoDup l) = true -> NoDup l)
    by (intros l H; now apply bool_decide_eq_true in H).
  destruct rs, f as [f|], c as [c|], o as [o|], a as [a|]; simpl;
    (repeat split; [apply Hnd; reflexivity|]); intros k Hk; tauto.
Qed.

(** ** [publish]: what is selected, in general *)

Lemma select_distributors_fst (self : Repository) (options : PublishOptions) :
  (select_distributors self options).*1
  = omap (fun c => last (distributors_with_id self c)) (publish_candidates options).
Proof.
  rewrite select_distributors_spec, <- list_fmap_compose. apply list_fmap_id.
Qed.

Lemma select_distributors_ids (self : Repository) (options : PublishOptions) :
  d_id <$> (select_distributors self options).*1
  = filter (fun c => is_Some (last (distributors_with_id self c)))
           (publish_candidates options).
Proof.
  rewrite select_distributors_fst.
  induction (publish_candidates options) as [|c cands IH]; [reflexivity|].
  rewrite filter_cons. simpl.
  destruct (last (distributors_with_id self c)) as [d|] eqn:E.
  - apply last_with_id in E as [E _]. rewrite decide_True by eauto. simpl.
    now rewrite E, <- IH.
  - rewrite decide_False by (intros [? ?]; discriminate). exact IH.
Qed.

(** X4. Whatever the repository and the options: the ids of the published
    distributors are ids of the allow-list, in its order and each at most
    once; every published distributor is one of the repository's and comes
    with the configuration derived from the options; and nothing is
    published exactly when no distributor of the repository has an id that
    the options allow. *)
Theorem select_distributors_invariants (self : Repository) (options : PublishOptions) :
  let to_publish := select_distributors self options in
  d_id <$> to_publish.*1 `sublist_of` _PUBLISH_DISTRIBUTORS /\
  NoDup (d_id <$> to_publish.*1) /\
  Forall (fun p => In (fst p) (distributors self) /\
                   snd p = _config_for_distributor (fst p) options) to_publish /\
  (to_publish = [] <->
   forall d, In d (distributors self) -> ~ In (d_id d) (publish_candidates options)).
Proof.
  intros to_publish. unfold to_publish.
  assert (Hnd : NoDup _PUBLISH_DISTRIBUTORS).
  { refine (bool_decide_unpack (NoDup _) _). vm_compute. exact I. }
  split; [|split; [|split]].
  - rewrite select_distributors_ids. etransitivity; [apply sublist_filter|].
    apply sublist_filter.
  - rewrite select_distributors_ids. apply NoDup_filter, NoDup_filter, Hnd.
  - rewrite select_distributors_spec. apply Forall_fmap, Forall_forall.
    intros d Hd. simpl. split; [|reflexivity].
    apply list_elem_of_omap in Hd as (c & _ & Hc).
    apply last_with_id in Hc as [_ Hc]. now apply list_elem_of_In.
  - split.
    + intros Hnil d Hd Hc.
      assert (Hids : d_id d ∈ d_id <$> (select_distributors self options).*1).
      { rewrite select_distributors_ids. apply list_elem_of_filter.
        split; [|now apply list_elem_of_In].
        apply last_is_Some. intros Hn.
        apply (filter_nil_not_elem_of _ _ d Hn); [reflexivity|now apply list_elem_of_In]. }
      rewrite Hnil in Hids. now apply elem_of_nil in Hids.
    + intros Hno.
      destruct (select_distributors self options) as [|[d cfg] l] eqn:E; [reflexivity|].
      exfalso.
      assert (Hids : d_id d ∈ d_id <$> (select_distributors self options).*1)
        by (rewrite E; left).
      rewrite select_distributors_ids in Hids.
      apply list_elem_of_filter in Hids as [[d' Hd'] Hc].
      apply last_with_id in Hd' as [Hid Hd'].
      apply (Hno d'); [now apply list_elem_of_In|]. rewrite Hid.
      now apply list_elem_of_In.
Qed.

(** The theorem at a repository whose only distributor is not on the
    allow-list: nothing is selected. *)
Lemma select_distributors_invariants_witness :
  let other := {| d_id := "export_distributor"; repo_id := None; is_rsync := false |} in
  let self := {| id := "repo1"; distributors := [other] |} in
  select_distributors self PublishOptions_default = [].
Proof.
  intros other self.
  apply (proj2 (proj2 (proj2 (proj2
           (select_distributors_invariants self PublishOptions_default))))).
  intros d [<-|[]] Hin. vm_compute in Hin. intuition discriminate.
Defined.

(** ** [remove_content], in general *)

(** X5. Whatever its arguments, remove_content on an attached repository makes
    exactly one unassociate call, returns its future, and warns about
    type_ids exactly when type_ids is used. The call is unrestricted only
    when neither a criteria nor type_ids is given: an empty list of
    type_ids still gives a criteria. *)
Theorem remove_content_one_call (self : Repository) (client : Client)
    (criteria : option Criteria) (type_ids : option (list string)) :
  exists sent : option Criteria,
    remove_content self (Some client) criteria type_ids
    = (inr (_do_unassociate client (id self) sent),
       (if bool_decide (criteria = None /\ type_ids <> None)
        then [EvWarn "type_ids is deprecated, use criteria instead"] else [])
       ++ [EvDoUnassociate (id self) sent]) /\
    (sent = None <-> criteria = None /\ type_ids = None) /\
    (forall ids, criteria = None -> type_ids = Some ids ->
                 sent = Some (with_field "content_type_id" (in_ ids))).
Proof.
  destruct criteria as [c|], type_ids as [ids|].
  - exists (Some c). split; [reflexivity|]. split; [|discriminate].
    split; [discriminate|]. intros [H _]. discriminate H.
  - exists (Some c). split; [reflexivity|]. split; [|discriminate].
    split; [discriminate|]. intros [H _]. discriminate H.
  - exists (Some (with_field "content_type_id" (in_ ids))). split; [reflexivity|].
    split; [|now intros ids' _ [= <-]].
    split; [discriminate|]. intros [_ H]. discriminate H.
  - exists None. split; [reflexivity|]. split; [tauto|discriminate].
Qed.

(** The theorem at an empty list of type_ids. *)
Lemma remove_content_one_call_witness :
  let self := {| id := "repo1"; distributors := [] |} in
  snd (remove_content self (Some (answering_client PNone)) None (Some []))
  = [EvWarn "type_ids is deprecated, use criteria instead";
     EvDoUnassociate "repo1" (Some (with_field "content_type_id" (in_ [])))].
Proof.
  intros self.
  destruct (remove_content_one_call self (answering_client PNone) None (Some []))
    as (sent & Hrun & _ & Hids).
  rewrite Hrun, (Hids [] eq_refl eq_refl). reflexivity.
Defined.

(** ** [pv_converter], applied again *)

(** Sorting a list that is in order returns it. *)
Lemma sorted_fixed {A : Type} (lt : A -> A -> bool) (l : list A) :
  Sorted (PySort.le lt) l -> PySort.sorted lt l = l.
Proof.
  induction 1 as [|x l Hs IH Hhd]; simpl; [reflexivity|].
  rewrite IH. destruct Hhd as [|y l' Hxy]; simpl; [reflexivity|].
  unfold PySort.le in Hxy. now rewrite Hxy.
Qed.

Lemma keyed_again (int : string -> option Z) (keyed : list (list Z * string)) :
  Forall (fun kv => version_key int (snd kv) = Some (fst kv)) keyed ->
  mapM (fun v => k ← version_key int v; Some (k, v)) (snd <$> keyed) = Some keyed.
Proof.
  intros H. apply mapM_Some, Forall2_fmap_l, Forall_Forall2_diag.
  apply (Forall_impl _ _ _ H). intros [k v] Hkv. simpl in *. now rewrite Hkv.
Qed.

(** X6. Converting the result of the converter changes nothing: a value that
    went through the converter once is a fixed point of it (as when an
    instance is rebuilt from the attributes of another). *)
Theorem pv_converter_idempotent (int : string -> option Z) (versions : list string) :
  pv_converter int (pv_converter int versions) = pv_converter int versions.
Proof.
  unfold pv_converter at 2 3.
  destruct (mapM _ versions) as [keyed|] eqn:E.
  - destruct (keyed_spec _ _ _ E) as [_ Hkeys].
    assert (Hsorted : Forall (fun kv => version_key int (snd kv) = Some (fst kv))
                        (PySort.sorted (fun a b => list_lt (fst a) (fst b)) keyed)).
    { rewrite Forall_forall in *. intros kv Hkv. apply Hkeys.
      apply list_elem_of_In. apply list_elem_of_In in Hkv.
      eapply Permutation_in; [symmetry; apply sorted_perm|exact Hkv]. }
    unfold pv_converter. rewrite (keyed_again _ _ Hsorted). f_equal.
    apply sorted_fixed, sorted_Sorted. intros a b. apply list_lt_asym.
  - assert (Hnone : mapM (fun v => k ← version_key int v; Some (k, v))
                      (PySort.sorted str_lt versions) = None).
    { apply mapM_None. apply mapM_None in E.
      apply Exists_exists in E as (v & Hv & Hf). apply Exists_exists. exists v.
      split; [|exact Hf]. now rewrite <- (sorted_perm str_lt versions). }
    unfold pv_converter. rewrite Hnone.
    apply sorted_fixed, sorted_Sorted, str_lt_asym.
Qed.

(** X7. When every component of every version is read by int, versions
    with the same numeric key, such as "8.1" and "08.1", come out in the
    order they went in: the versions of any one key are, in the result, the
    subsequence they are in the input. *)
Theorem pv_converter_keeps_ties (int : string -> option Z) (versions : list string) (k : list Z) :
  (forall v c, In v versions -> In c (split_dot v) -> is_Some (int c)) ->
  filter (fun v => version_key int v = Some k) (pv_converter int versions)
  = filter (fun v => version_key int v = Some k) versions.
Proof.
  intros Hall. apply keyed_is_Some in Hall as [keyed E].
  unfold pv_converter. rewrite E.
  destruct (keyed_spec _ _ _ E) as [Hsnd Hkeys].
  transitivity (filter (fun v => version_key int v = Some k) (snd <$> keyed));
    [|now rewrite Hsnd].
  rewrite !filter_keyed; trivial.
  - f_equal. apply sorted_stable. intros a b -> <-. apply list_lt_irrefl.
  - rewrite Forall_forall in *. intros kv Hkv. apply Hkeys.
    apply list_elem_of_In. apply list_elem_of_In in Hkv.
    eapply Permutation_in; [symmetry; apply sorted_perm|exact Hkv].
Qed.

(** The theorem at versions of which two have the same key. *)
Lemma pv_converter_keeps_ties_witness :
  filter (fun v => version_key int_ascii v = Some [8; 1]) (pv_converter int_ascii ["9"; "8.1"; "7"; "08.1"])
  = ["8.1"; "08.1"].
Proof.
  rewrite (pv_converter_keeps_ties int_ascii ["9"; "8.1"; "7"; "08.1"] [8; 1]); [reflexivity|].
  intros v c Hv Hc. simpl in Hv.
  destruct Hv as [<-|[<-|[<-|[<-|[]]]]]; simpl in Hc;
    repeat (destruct Hc as [<-|Hc]; [vm_compute; eexists; reflexivity|]);
    destruct Hc.
Defined.

(** ** [_upload_then_import]: how the steps depend on each other *)

(** Unfolds the chain for a client given by its fields. *)
Ltac unfold_chain :=
  cbv [_upload_then_import bind call emit ret lift f_map f_flat_map f_proxy
       future_result app fst snd
       _request_upload _do_upload_file _do_import _delete_upload_request] in *.

(** X9. When the upload id cannot be had, because the upload request fails or
    because its answer has no upload_id, the chain stops there: the future
    returned fails with that error, and nothing is uploaded, derived,
    imported or deleted. *)
Theorem upload_then_import_request_failure (self : Repository) (client : Client)
    (file_obj : option string) (name type_id : string)
    (unit_key_fn unit_metadata_fn : option (pyval -> result pyval)) (e : exn) :
  (_request_upload client name = inl e \/
   exists upload, _request_upload client name = inr upload /\
                  subscript upload "upload_id" = inl e) ->
  _upload_then_import self (Some client) file_obj name type_id unit_key_fn unit_metadata_fn
  = (inr (inl e), [EvRequestUpload name]).
Proof.
  destruct client. intros [Hreq|(upload & Hreq & Hid)]; unfold_chain.
  - rewrite Hreq. now destruct file_obj.
  - rewrite Hreq, Hid. now destruct file_obj.
Qed.

(** The theorem at a client whose answer to the upload request has no
    upload_id. *)
Lemma upload_then_import_request_failure_witness :
  let self := {| id := "repo1"; distributors := [] |} in
  let client := {| _search_repo_units := fun _ _ => inr PNone;
                   _publish_repository := fun _ _ => inr PNone;
                   _do_sync := fun _ _ => inr PNone;
                   _do_unassociate := fun _ _ => inr PNone;
                   _request_upload := fun _ => inr (PDict [("_href", PStr "/uploads/1")]);
                   _do_upload_file := fun _ _ _ => inr PNone;
                   _do_import := fun _ _ _ _ _ => inr PNone;
                   _delete_upload_request := fun _ _ => inr PNone |} in
  _upload_then_import self (Some client) (Some "/tmp/file.rpm") "file.rpm" "rpm" None None
  = (inr (inl (KeyError "upload_id")), [EvRequestUpload "file.rpm"]).
Proof.
  intros self client.
  apply (upload_then_import_request_failure self client).
  right. eexists. split; reflexivity.
Defined.

(** X10. When the upload of the file fails, the future returned fails with the
    same error; the derivation functions are not called, nothing is
    imported, and the upload request is not deleted. *)
Theorem upload_then_import_upload_failure (self : Repository) (client : Client)
    (file_obj name type_id : string)
    (unit_key_fn unit_metadata_fn : option (pyval -> result pyval))
    (upload upload_id : pyval) (e : exn) :
  _request_upload client name = inr upload ->
  subscript upload "upload_id" = inr upload_id ->
  _do_upload_file client upload_id file_obj name = inl e ->
  _upload_then_import self (Some client) (Some file_obj) name type_id
                      unit_key_fn unit_metadata_fn
  = (inr (inl e),
     [EvRequestUpload name;
      EvLogUploading name (id self) upload_id;
      EvDoUploadFile upload_id file_obj name]).
Proof.
  destruct client. intros Hreq Hid Hup. unfold_chain.
  now rewrite Hreq, Hid, Hup.
Qed.

(** The theorem at a client that fails every upload of a file. *)
Lemma upload_then_import_upload_failure_witness :
  let self := {| id := "repo1"; distributors := [] |} in
  let client := {| _search_repo_units := fun _ _ => inr PNone;
                   _publish_repository := fun _ _ => inr PNone;
                   _do_sync := fun _ _ => inr PNone;
                   _do_unassociate := fun _ _ => inr PNone;
                   _request_upload := fun _ => inr (PDict [("upload_id", PStr "upload-1")]);
                   _do_upload_file := fun _ _ _ => inl (RemoteError "connection reset");
                   _do_import := fun _ _ _ _ _ => inr PNone;
                   _delete_upload_request := fun _ _ => inr PNone |} in
  _upload_then_import self (Some client) (Some "/tmp/file.rpm") "file.rpm" "rpm" None None
  = (inr (inl (RemoteError "connection reset")),
     [EvRequestUpload "file.rpm";
      EvLogUploading "file.rpm" "repo1" (PStr "upload-1");
      EvDoUploadFile (PStr "upload-1") "/tmp/file.rpm" "file.rpm"]).
Proof.
  intros self client.
  exact (upload_then_import_upload_failure self client "/tmp/file.rpm" "file.rpm" "rpm"
           None None _ _ _ eq_refl eq_refl eq_refl).
Defined.

(** X11. With a file whose upload succeeds, each step takes what the steps
    before it produced: the file is uploaded under the upload id of the
    request, both derivation functions get what the upload returned, the
    import call gets the upload id and what the functions derived, and the
    future returned is that of the import call; the delete call, made when
    the import succeeded, gets the same upload id. *)
Theorem upload_then_import_with_file (self : Repository) (client : Client)
    (file_obj name type_id : string)
    (unit_key_fn unit_metadata_fn : option (pyval -> result pyval))
    (upload upload_id descriptor unit_key unit_metadata : pyval) :
  _request_upload client name = inr upload ->
  subscript upload "upload_id" = inr upload_id ->
  _do_upload_file client upload_id file_obj name = inr descriptor ->
  unit_key_fn_or_default unit_key_fn descriptor = inr unit_key ->
  unit_metadata_fn_or_default unit_metadata_fn descriptor = inr unit_metadata ->
  let imported := _do_import client (id self) upload_id type_id unit_key unit_metadata in
  _upload_then_import self (Some client) (Some file_obj) name type_id
                      unit_key_fn unit_metadata_fn
  = (inr imported,
     [EvRequestUpload name;
      EvLogUploading name (id self) upload_id;
      EvDoUploadFile upload_id file_obj name;
      EvUnitKeyFn descriptor;
      EvUnitMetadataFn descriptor;
      EvDoImport (id self) upload_id type_id unit_key unit_metadata]
     ++ match imported with
        | inr _ => [EvDeleteUploadRequest upload_id name]
        | inl _ => []
        end).
Proof.
  destruct client. intros Hreq Hid Hup Hk Hm imported. subst imported. unfold_chain.
  rewrite Hreq, Hid, Hup, Hk, Hm.
  now destruct (_do_import0 (id self) upload_id type_id unit_key unit_metadata).
Qed.

(** The theorem at an upload whose descriptor is a size and a checksum,
    with a unit key derived from it. *)
Lemma upload_then_import_with_file_witness :
  let self := {| id := "repo1"; distributors := [] |} in
  let descriptor := PList [PInt 1024; PStr "abc123"] in
  let client := {| _search_repo_units := fun _ _ => inr PNone;
                   _publish_repository := fun _ _ => inr PNone;
                   _do_sync := fun _ _ => inr PNone;
                   _do_unassociate := fun _ _ => inr PNone;
                   _request_upload := fun _ => inr (PDict [("upload_id", PStr "upload-1")]);
                   _do_upload_file := fun _ _ _ => inr descriptor;
                   _do_import := fun _ _ _ _ _ => inr (PStr "imported");
                   _delete_upload_request := fun _ _ => inr PNone |} in
  let key_fn := fun upload => inr (PDict [("upload", upload)]) in
  _upload_then_import self (Some client) (Some "/tmp/file.iso") "file.iso" "iso"
                      (Some key_fn) None
  = (inr (inr (PStr "imported")),
     [EvRequestUpload "file.iso";
      EvLogUploading "file.iso" "repo1" (PStr "upload-1");
      EvDoUploadFile (PStr "upload-1") "/tmp/file.iso" "file.iso";
      EvUnitKeyFn descriptor;
      EvUnitMetadataFn descriptor;
      EvDoImport "repo1" (PStr "upload-1") "iso" (PDict [("upload", descriptor)]) PNone;
      EvDeleteUploadRequest (PStr "upload-1") "file.iso"]).
Proof.
  intros self descriptor client key_fn.
  exact (upload_then_import_with_file self client "/tmp/file.iso" "file.iso" "iso"
           (Some key_fn) None _ _ _ _ _ eq_refl eq_refl eq_refl eq_refl eq_refl).
Defined.

(** X12. When a derivation function raises, the future returned fails with what
    it raised and nothing is imported or deleted; when it is the unit-key
    function that raises, the unit-metadata function is not called. This
    holds with and without a file. *)
Theorem upload_then_import_derivation_failure (self : Repository) (client : Client)
    (file_obj : option string) (name type_id : string)
    (unit_key_fn unit_metadata_fn : option (pyval -> result pyval))
    (upload upload_id descriptor : pyval) (e : exn) :
  _request_upload client name = inr upload ->
  subscript upload "upload_id" = inr upload_id ->
  fst (upload_step client file_obj name upload_id) = inr descriptor ->
  let run := _upload_then_import self (Some client) file_obj name type_id
                                 unit_key_fn unit_metadata_fn in
  let uploaded := [EvRequestUpload name; EvLogUploading name (id self) upload_id]
                  ++ snd (upload_step client file_obj name upload_id) in
  (unit_key_fn_or_default unit_key_fn descriptor = inl e ->
   run = (inr (inl e), uploaded ++ [EvUnitKeyFn descriptor])) /\
  (forall unit_key,
     unit_key_fn_or_default unit_key_fn descriptor = inr unit_key ->
     unit_metadata_fn_or_default unit_metadata_fn descriptor = inl e ->
     run = (inr (inl e),
            uploaded ++ [EvUnitKeyFn descriptor; EvUnitMetadataFn descriptor])).
Proof.
  destruct client. intros Hreq Hid Hup run uploaded. subst run uploaded.
  destruct file_obj as [file_obj|]; cbv [upload_step fst snd _do_upload_file] in *.
  - split.
    + intros Hk. unfold_chain. now rewrite Hreq, Hid, Hup, Hk.
    + intros unit_key Hk Hm. unfold_chain. now rewrite Hreq, Hid, Hup, Hk, Hm.
  - injection Hup as <-. split.
    + intros Hk. unfold_chain. now rewrite Hreq, Hid, Hk.
    + intros unit_key Hk Hm. unfold_chain. now rewrite Hreq, Hid, Hk, Hm.
Qed.

(** The theorem at a unit-key function that rejects the absent descriptor
    of an upload without a file. *)
Lemma upload_then_import_derivation_failure_witness :
  let self := {| id := "repo1"; distributors := [] |} in
  let key_fn := fun _ : pyval => inl (ValueError "no checksum") : result pyval in
  _upload_then_import self (Some (answering_client PNone)) None "advisory" "erratum"
                      (Some key_fn) None
  = (inr (inl (ValueError "no checksum")),
     [EvRequestUpload "advisory";
      EvLogUploading "advisory" "repo1" (PStr "upload-1");
      EvUnitKeyFn PNone]).
Proof.
  intros self key_fn.
  exact (proj1 (upload_then_import_derivation_failure self (answering_client PNone)
                  None "advisory" "erratum" (Some key_fn) None _ _ _
                  (ValueError "no checksum") eq_refl eq_refl eq_refl) eq_refl).
Defined.

(** ** The mutable notes of any class *)

Lemma mutable_notes_step_total (fields : list Field) (self_raw : pyval)
    (out : option pydict) (fld : Field) (k : string) :
  pulp_field_or_empty fld = "notes." +:+ k ->
  split_dot k = [k] ->
  notes_only (mutable_note_key fields self_raw) out ->
  is_Some out ->
  is_Some (_mutable_notes_step self_raw out fld).
Proof.
  intros Hk Hs Hinv [o ->]. unfold _mutable_notes_step. simpl.
  destruct (lookup self_raw (pulp_field_or_empty fld)) as [|v]; [now eexists|].
  unfold dict_put. rewrite Hk.
  change (split_dot ("notes." +:+ k)) with ("notes" :: split_dot k).
  rewrite Hs, dict_put_path_nested.
  destruct (Hinv o eq_refl) as [_ Hnotes].
  destruct (dict_get "notes" o) as [nv|]; [|now eexists].
  destruct (Hnotes nv eq_refl) as (n & -> & _). now eexists.
Qed.

Lemma mutable_notes_loop_total (fields : list Field) (self_raw : pyval) (l : list Field)
    (out : option pydict) :
  (forall fld, In fld l ->
     In fld fields /\ String.prefix "notes." (pulp_field_or_empty fld) = true /\
     mutable fld = true /\
     exists k, pulp_field_or_empty fld = "notes." +:+ k /\ split_dot k = [k]) ->
  notes_only (mutable_note_key fields self_raw) out ->
  is_Some out ->
  is_Some (foldl (_mutable_notes_step self_raw) out l).
Proof.
  revert out. induction l as [|fld l IH]; intros out Hl Hinv Hsome; simpl; [exact Hsome|].
  destruct (Hl fld (or_introl eq_refl)) as (H1 & H2 & H3 & k & Hk & Hs).
  apply IH; [intros f Hf; apply Hl; now right| |].
  - now apply mutable_notes_step_inv.
  - now apply (mutable_notes_step_total fields self_raw out fld k).
Qed.

(** X13. For a class with any table of fields whose mutable note fields sit
    directly under notes (a path "notes.k" with no further dot), and for any
    raw form: the mutable notes are a mapping, and each of its keys is the
    name under notes of a mutable note field of the class that has a value
    in the raw form. Fields that are immutable, outside notes, or absent
    from the raw form contribute nothing. *)
Theorem mutable_notes_any_flat_class (fields : list Field) (self_raw : pyval) :
  (forall fld, In fld (_mutable_note_fields fields) ->
     exists k, pulp_field_or_empty fld = "notes." +:+ k /\ split_dot k = [k]) ->
  exists notes : pydict,
    _mutable_notes fields self_raw = Some (PDict notes) /\
    forall k, In k (keys notes) -> mutable_note_key fields self_raw k.
Proof.
  intros Hflat.
  assert (Hl : forall fld, In fld (_mutable_note_fields fields) ->
             In fld fields /\ String.prefix "notes." (pulp_field_or_empty fld) = true /\
             mutable fld = true /\
             exists k, pulp_field_or_empty fld = "notes." +:+ k /\ split_dot k = [k]).
  { intros fld Hin. pose proof (Hflat fld Hin) as Hk.
    unfold _mutable_note_fields in Hin.
    apply list_elem_of_In, list_elem_of_filter in Hin as [Hd Hin].
    apply bool_decide_unpack in Hd as [H1 H2]. apply list_elem_of_In in Hin. auto. }
  assert (Hinv0 : notes_only (mutable_note_key fields self_raw) (Some [])).
  { intros o [= <-]. split; [intros k []|]. simpl. discriminate. }
  destruct (mutable_notes_loop_total fields self_raw _ (Some []) Hl Hinv0) as [out Hout];
    [now eexists|].
  destruct (_mutable_notes fields self_raw) as [payload|] eqn:E.
  - destruct (mutable_notes_keys_any_class _ _ _ E) as (notes & -> & Hkeys).
    now exists notes.
  - unfold _mutable_notes in E. rewrite Hout in E. discriminate E.
Qed.

(** The theorem at a class that adds one mutable note to those of
    Repository, and at a raw form with that note, an immutable note and a
    field outside notes. *)
Lemma mutable_notes_any_flat_class_witness :
  let fields := Repository_fields
                ++ [mkField "population_sources" (Some "notes.population_sources") true] in
  let self_raw :=
    PDict [("id", PStr "repo1");
           ("notes", PDict [("arch", PStr "x86_64");
                            ("population_sources", PStr "repo0")])] in
  exists notes : pydict,
    _mutable_notes fields self_raw = Some (PDict notes) /\
    forall k, In k (keys notes) -> mutable_note_key fields self_raw k.
Proof.
  intros fields self_raw.
  apply (mutable_notes_any_flat_class fields self_raw).
  intros fld Hin. vm_compute in Hin.
  destruct Hin as [<-|[<-|[<-|[<-|[]]]]]; eexists; split; reflexivity.
Defined.

(** ** The converters of [signing_keys] *)

Lemma split_on_cons (sep : ascii) (s : string) : exists h t, split_on sep s = h :: t.
Proof.
  induction s as [|c s (h & t & IH)]; simpl; [now eexists _, _|].
  destruct (Ascii.eqb c sep); [now eexists _, _|]. rewrite IH. now eexists _, _.
Qed.

Lemma join_cons (sep x y : string) (l : list string) :
  join sep (x :: y :: l) = x +:+ sep +:+ join sep (y :: l).
Proof. reflexivity. Qed.

(** X14. Splitting the raw string and joining the parts gives the raw string
    back, for every string: the value read from Pulp is written back
    unchanged as long as the keys are not converted in between. *)
Theorem signing_keys_split_join (sigs : string) :
  signing_keys_py_pulp_converter (signing_keys_pulp_py_converter sigs) = sigs.
Proof.
  unfold signing_keys_py_pulp_converter, signing_keys_pulp_py_converter.
  induction sigs as [|c s IH]; [reflexivity|]. simpl split_on.
  destruct (split_on_cons "," s) as (h & t & Hs). rewrite Hs in *.
  destruct (Ascii.eqb_spec c ","%char) as [->|Hc].
  - rewrite join_cons, IH. reflexivity.
  - destruct t as [|y t].
    + simpl in *. now rewrite IH.
    + rewrite join_cons in *. rewrite <- IH. reflexivity.
Qed.

Lemma split_on_comma_free (k : string) :
  comma_free k = true -> split_on "," k = [k].
Proof.
  induction k as [|c k IH]; [reflexivity|]. simpl.
  destruct (Ascii.eqb c ","); simpl; [discriminate|]. intros H. now rewrite IH.
Qed.

Lemma split_on_append (k rest : string) :
  comma_free k = true ->
  split_on "," (k +:+ "," +:+ rest) = k :: split_on "," rest.
Proof.
  induction k as [|c k IH]; [reflexivity|]. simpl.
  destruct (Ascii.eqb c ","); simpl; [discriminate|]. intros H.
  rewrite (IH H). reflexivity.
Qed.

Lemma split_on_join (keys : list string) :
  keys <> [] ->
  Forall (fun k => comma_free k = true) keys ->
  split_on "," (join "," keys) = keys.
Proof.
  intros Hne Hall. induction Hall as [|k keys Hk Hall IH]; [contradiction|].
  destruct keys as [|k' keys].
  - simpl. now apply split_on_comma_free.
  - rewrite join_cons, split_on_append by exact Hk. f_equal. now apply IH.
Qed.

(** X15. Joining a list of keys and splitting the result gives the keys back,
    provided the list is not empty and no key holds a comma. The empty list
    does not come back: it is written as the empty string, which reads as
    one empty key. *)
Theorem signing_keys_join_split (keys : list string) :
  keys <> [] ->
  Forall (fun k => comma_free k = true) keys ->
  signing_keys_pulp_py_converter (signing_keys_py_pulp_converter keys) = keys /\
  signing_keys_pulp_py_converter (signing_keys_py_pulp_converter []) = [EmptyString].
Proof.
  intros Hne Hall. split; [|reflexivity]. now apply split_on_join.
Qed.

(** The theorem at two keys. *)
Lemma signing_keys_join_split_witness :
  signing_keys_pulp_py_converter (signing_keys_py_pulp_converter ["fd431d51"; "f21541eb"])
  = ["fd431d51"; "f21541eb"].
Proof.
  apply (signing_keys_join_split ["fd431d51"; "f21541eb"]); [discriminate|].
  repeat constructor.
Defined.

Lemma lstrip_idem (s : string) : lstrip (lstrip s) = lstrip s.
Proof.
  induction s as [|c s IH]; [reflexivity|]. simpl.
  destruct (is_whitespace c) eqn:E; [exact IH|]. simpl. now rewrite E.
Qed.

Lemma rstrip_idem (s : string) : rstrip (rstrip s) = rstrip s.
Proof.
  induction s as [|c s IH]; [reflexivity|]. simpl.
  destruct (rstrip s) as [|a r] eqn:Er.
  - destruct (is_whitespace c) eqn:E; [reflexivity|]. simpl. now rewrite E.
  - change (rstrip (String c (String a r))
            = String c (String a r)).
    cbn [rstrip] in *. now rewrite IH.
Qed.

Lemma lstrip_rstrip (s : string) : lstrip (rstrip s) = rstrip (lstrip s).
Proof.
  induction s as [|c s IH]; [reflexivity|].
  cbn [lstrip rstrip]. destruct (is_whitespace c) eqn:E.
  - rewrite <- IH. destruct (rstrip s) as [|a r]; [reflexivity|].
    cbn [lstrip]. now rewrite E.
  - cbn [rstrip]. destruct (rstrip s) as [|a r]; cbn [lstrip]; now rewrite E.
Qed.

Lemma strip_idem (s : string) : strip (strip s) = strip s.
Proof.
  unfold strip. now rewrite lstrip_rstrip, rstrip_idem, lstrip_idem.
Qed.

Lemma comma_free_lstrip (s : string) : comma_free s = true -> comma_free (lstrip s) = true.
Proof.
  induction s as [|c s IH]; [reflexivity|]. simpl.
  destruct (is_whitespace c); [|tauto].
  intros H. apply andb_true_iff in H as [_ H]. now apply IH.
Qed.

Lemma comma_free_rstrip (s : string) : comma_free s = true -> comma_free (rstrip s) = true.
Proof.
  induction s as [|c s IH]; [reflexivity|]. simpl.
  intros H. apply andb_true_iff in H as [Hc H]. specialize (IH H).
  destruct (rstrip s) as [|a r].
  - destruct (is_whitespace c); [reflexivity|]. simpl. now rewrite Hc.
  - simpl in *. now rewrite Hc, IH.
Qed.

(** X16. The converter of the attribute strips every key and only that: the
    result has as many keys, none with white space at either end, and it is
    a fixed point of the converter. A non-empty list of converted keys
    without commas survives the round trip through its Pulp form. *)
Theorem signing_keys_converter_normal (keys : list string) :
  let converted := signing_keys_converter keys in
  signing_keys_converter converted = converted /\
  length converted = length keys /\
  Forall (fun k => lstrip k = k /\ rstrip k = k) converted /\
  (keys <> [] ->
   Forall (fun k => comma_free k = true) keys ->
   signing_keys_converter
     (signing_keys_pulp_py_converter (signing_keys_py_pulp_converter converted))
   = converted).
Proof.
  intros converted. subst converted. unfold signing_keys_converter.
  assert (Hidem : strip <$> (strip <$> keys) = strip <$> keys).
  { rewrite <- list_fmap_compose. apply list_fmap_ext. intros _ k _. apply strip_idem. }
  split; [exact Hidem|]. split; [apply length_fmap|]. split.
  - apply Forall_fmap, Forall_true. intros k. unfold strip. simpl. split.
    + now rewrite lstrip_rstrip, lstrip_idem.
    + apply rstrip_idem.
  - intros Hne Hall.
    unfold signing_keys_pulp_py_converter, signing_keys_py_pulp_converter.
    rewrite split_on_join; [exact Hidem| |].
    + destruct keys; [contradiction|discriminate].
    + apply Forall_fmap. apply (Forall_impl _ _ _ Hall). intros k Hk.
      unfold strip. simpl. now apply comma_free_rstrip, comma_free_lstrip.
Qed.

(** The theorem at keys read from a string with spaces after the commas. *)
Lemma signing_keys_converter_normal_witness :
  let keys := signing_keys_pulp_py_converter "fd431d51, f21541eb " in
  signing_keys_converter keys = ["fd431d51"; "f21541eb"] /\
  signing_keys_converter
    (signing_keys_pulp_py_converter
       (signing_keys_py_pulp_converter (signing_keys_converter keys)))
  = signing_keys_converter keys.
Proof.
  intros keys. split; [reflexivity|].
  apply (proj2 (proj2 (proj2 (signing_keys_converter_normal keys))));
    [discriminate|repeat constructor].
Defined.

(** ** The converters of the download-service flags and of
    [eng_product_id] *)

(** X17. Writing a flag to Pulp and reading it back gives the flag; and a raw
    value reads as True only when it is exactly the string "True": any
    other value, such as "true", "1" or a boolean, reads as False. *)
Theorem download_service_flag_round_trip :
  (forall b : bool, download_service_pulp_py_converter (PStr (py_str_bool b)) = b) /\
  (forall x : pyval, download_service_pulp_py_converter x = true <-> x = PStr "True").
Proof.
  split; [now intros []|]. intros x. split.
  - destruct x; simpl; try discriminate. intros H. apply String.eqb_eq in H. now subst.
  - now intros ->.
Qed.

Lemma int_digits_uint_acc (d : Decimal.uint) (acc : positive) :
  int_digits (Z.pos acc)
             (list_ascii_of_string (DecimalString.NilEmpty.string_of_uint d))
  = Some (Z.pos (Pos.of_uint_acc d acc)).
Proof.
  revert acc. induction d; intros acc; cbn [DecimalString.NilEmpty.string_of_uint
    list_ascii_of_string Pos.of_uint_acc int_digits]; [reflexivity|..];
    match goal with
    | |- context [digit_val ?c] =>
        let v := eval vm_compute in (digit_val c) in
        change (digit_val c) with v; cbv iota
    end;
    match goal with
    | |- int_digits ?a _ = Some (Z.pos (Pos.of_uint_acc _ ?b)) =>
        replace a with (Z.pos b) by lia; apply IHd
    end.
Qed.

Lemma int_digits_uint (d : Decimal.uint) :
  int_digits 0 (list_ascii_of_string (DecimalString.NilEmpty.string_of_uint d))
  = Some (Z.of_N (Pos.of_uint d)).
Proof.
  induction d; cbn [DecimalString.NilEmpty.string_of_uint list_ascii_of_string
    Pos.of_uint int_digits]; [reflexivity|..];
    match goal with
    | |- context [digit_val ?c] =>
        let v := eval vm_compute in (digit_val c) in
        change (digit_val c) with v; cbv iota
    end;
    [exact IHd|..];
    match goal with
    | |- int_digits ?a _ = Some (Z.of_N (N.pos (Pos.of_uint_acc _ ?b))) =>
        change a with (Z.pos b); apply int_digits_uint_acc
    end.
Qed.

Lemma int_unsigned_uint (d : Decimal.uint) :
  int_unsigned (list_ascii_of_string (DecimalString.NilZero.string_of_uint d))
  = Some (Z.of_uint d).
Proof.
  unfold Z.of_uint.
  destruct d; cbn [DecimalString.NilZero.string_of_uint
    DecimalString.NilEmpty.string_of_uint list_ascii_of_string int_unsigned Pos.of_uint];
    [reflexivity|..];
    match goal with
    | |- context [digit_val ?c] =>
        let v := eval vm_compute in (digit_val c) in
        change (digit_val c) with v; cbv iota
    end;
    [apply int_digits_uint|..];
    match goal with
    | |- int_digits ?a _ = Some (Z.of_N (N.pos (Pos.of_uint_acc _ ?b))) =>
        change a with (Z.pos b); apply int_digits_uint_acc
    end.
Qed.

Lemma int_ascii_uint (d : Decimal.uint) :
  int_ascii (DecimalString.NilZero.string_of_uint d) = Some (Z.of_uint d).
Proof.
  rewrite <- int_unsigned_uint. unfold int_ascii.
  destruct d; reflexivity.
Qed.

(** The ASCII grammar reads the decimal numeral of an integer as this
    integer. *)
Lemma int_ascii_decimal (n : Z) : int_ascii (decimal n) = Some n.
Proof.
  unfold decimal. rewrite <- (DecimalZ.of_to n) at 2.
  destruct (Z.to_int n) as [d|d]; simpl DecimalString.NilZero.string_of_int.
  - apply int_ascii_uint.
  - unfold Z.of_int, int_ascii. cbn [list_ascii_of_string drop_space].
    change (is_space "-") with false. cbv iota.
    change (Z.opp <$> int_unsigned
              (list_ascii_of_string (DecimalString.NilZero.string_of_uint d))
            = Some (- Z.of_uint d)).
    now rewrite int_unsigned_uint.
Qed.

Lemma all_digits_uint (d : Decimal.uint) :
  all_digits (DecimalString.NilEmpty.string_of_uint d) = true.
Proof. induction d; simpl; auto. Qed.

Lemma decimal_literal_uint (d : Decimal.uint) :
  decimal_literal (DecimalString.NilZero.string_of_uint d) = true /\
  DecimalString.NilZero.string_of_uint d <> EmptyString.
Proof.
  destruct d; simpl; (split; [|discriminate]); try reflexivity; apply all_digits_uint.
Qed.

(** The decimal numeral of an integer is a plain decimal literal. *)
Lemma decimal_literal_decimal (n : Z) : decimal_literal (decimal n) = true.
Proof.
  unfold decimal.
  destruct (Z.to_int n) as [d|d]; simpl DecimalString.NilZero.string_of_int.
  - apply decimal_literal_uint.
  - destruct (decimal_literal_uint d) as [Hd Hne].
    destruct (DecimalString.NilZero.string_of_uint d) as [|c r] eqn:E; [contradiction|].
    cbn [decimal_literal]. change (Ascii.eqb "-" "-") with true. cbv iota.
    unfold decimal_literal in Hd.
    destruct (Ascii.eqb c "-") eqn:Ec; [|exact Hd].
    exfalso. apply Ascii.eqb_eq in Ec. subst c.
    destruct d; simpl in E; discriminate E.
Qed.

(** X18. Writing a product id to Pulp with str and reading it back with int
    gives the id, for every integer whose decimal numeral has at most 640
    characters, whatever the limit on digits of the interpreter; [int] and
    [str] are only assumed to read and to write such numerals. *)
Theorem eng_product_id_round_trip (int : string -> option Z) (str : Z -> option string)
    (n : Z) :
  reads_decimal int ->
  writes_decimal str ->
  (String.length (decimal n) <= 640)%nat ->
  str n ≫= int = Some n.
Proof.
  intros Hint Hstr Hlen. rewrite (Hstr n Hlen). simpl.
  rewrite (Hint _ (decimal_literal_decimal n) Hlen). apply int_ascii_decimal.
Qed.

(** The theorem at an [int] and a [str] with a limit of 4300 characters,
    and a negative id. *)
Lemma eng_product_id_round_trip_witness :
  let int := fun s => if (String.length s <=? 4300)%nat then int_ascii s else None in
  let str := fun n => if (String.length (decimal n) <=? 4300)%nat
                      then Some (decimal n) else None in
  str (-2025) ≫= int = Some (-2025).
Proof.
  intros int str. apply (eng_product_id_round_trip int str (-2025)).
  - intros s _ Hlen. unfold int.
    destruct (Nat.leb_spec (String.length s) 4300) as [_|Hgt]; [reflexivity|lia].
  - intros n Hlen. unfold str.
    destruct (Nat.leb_spec (String.length (decimal n)) 4300) as [_|Hgt]; [reflexivity|lia].
  - vm_compute. repeat constructor.
Defined.

(** ** The registry of repository classes and [from_data] *)

Lemma registry_get_set (t t' klass : string) (r : Registry) :
  registry_get t' (registry_set t klass r)
  = if String.eqb t' t then Some klass else registry_get t' r.
Proof.
  induction r as [|[k klass'] r IH]; simpl.
  - now destruct (String.eqb t' t).
  - destruct (String.eqb_spec t k) as [->|Hne]; simpl.
    + now destruct (String.eqb t' k).
    + destruct (String.eqb_spec t' k) as [->|Hne'].
      * destruct (String.eqb_spec k t); [congruence|reflexivity].
      * exact IH.
Qed.

(** Over notes that are a dict, the loop of [from_data] is a lookup of the
    type of the notes in the registry. *)
Lemma from_data_loop_lookup (n : pydict) (r : Registry) :
  from_data_loop (PDict n) r
  = inr (match dict_get "_repo-type" n with
         | Some (PStr s) => registry_get s r
         | _ => None
         end).
Proof.
  induction r as [|[k klass] r IH]; simpl.
  - now destruct (dict_get "_repo-type" n) as [[]|].
  - destruct (dict_get "_repo-type" n) as [v|]; [|exact IH].
    destruct v; simpl in *; try exact IH.
    now destruct (String.eqb s k).
Qed.

Lemma from_data_lookup (r : Registry) (data n : pydict) :
  get_or_empty "notes" data = PDict n ->
  from_data r RepositoryClass data
  = inr (match repo_type_of data ≫= (fun t => registry_get t r) with
         | Some klass => Subclass klass
         | None => RepositoryClass
         end).
Proof.
  intros Hn. unfold from_data, repo_type_of. rewrite Hn, from_data_loop_lookup.
  destruct (dict_get "_repo-type" n) as [[]|]; simpl; try reflexivity.
  now destruct (registry_get s r).
Qed.

(** X19. Raw data whose notes are a dict (or are missing, None or empty) is
    decoded by the subclass registered for the string under
    notes._repo-type, and by Repository when there is no such string or no
    class is registered for it. *)
Theorem from_data_dispatch (REPO_CLASSES : Registry) (data n : pydict) :
  get_or_empty "notes" data = PDict n ->
  (forall t klass,
     dict_get "_repo-type" n = Some (PStr t) ->
     registry_get t REPO_CLASSES = Some klass ->
     from_data REPO_CLASSES RepositoryClass data = inr (Subclass klass)) /\
  (forall t,
     dict_get "_repo-type" n = Some (PStr t) ->
     registry_get t REPO_CLASSES = None ->
     from_data REPO_CLASSES RepositoryClass data = inr RepositoryClass) /\
  ((forall t, dict_get "_repo-type" n <> Some (PStr t)) ->
   from_data REPO_CLASSES RepositoryClass data = inr RepositoryClass).
Proof.
  intros Hn. rewrite (from_data_lookup _ _ _ Hn). unfold repo_type_of. rewrite Hn.
  split; [|split].
  - intros t klass -> Hk. simpl. now rewrite Hk.
  - intros t -> Hk. simpl. now rewrite Hk.
  - intros Hno. destruct (dict_get "_repo-type" n) as [[]|]; try reflexivity.
    now destruct (Hno s).
Qed.

(** The theorem at the data of a yum repository, with a class registered
    for rpm-repo. *)
Lemma from_data_dispatch_witness :
  let REPO_CLASSES := repo_type "rpm-repo" "YumRepository" [] in
  let data := [("id", PStr "repo1"); ("notes", PDict [("_repo-type", PStr "rpm-repo")])] in
  from_data REPO_CLASSES RepositoryClass data = inr (Subclass "YumRepository").
Proof.
  intros REPO_CLASSES data.
  exact (proj1 (from_data_dispatch REPO_CLASSES data
                  [("_repo-type", PStr "rpm-repo")] eq_refl)
               "rpm-repo" "YumRepository" eq_refl eq_refl).
Defined.

(** Once a class is registered, notes that are not a dict make the loop
    raise. *)
Lemma from_data_not_dict (r : Registry) (data : pydict) :
  r <> [] ->
  (forall n, get_or_empty "notes" data <> PDict n) ->
  from_data r RepositoryClass data = inl (AttributeError "get").
Proof.
  intros Hne Hnot. unfold from_data.
  destruct r as [|[k klass] r]; [contradiction|]. simpl.
  destruct (get_or_empty "notes" data); try reflexivity. now destruct (Hnot d).
Qed.

Lemma registry_set_not_empty (t klass : string) (r : Registry) :
  registry_set t klass r <> [].
Proof.
  destruct r as [|[k klass'] r]; simpl; [discriminate|].
  destruct (String.eqb t k); discriminate.
Qed.

(** X20. Registering a class for a type makes Repository decode the data of
    that type with this class, whatever was registered for the type before,
    and leaves the decoding of all other data whose notes are a dict (or
    are missing, None or empty) as it was. Data whose notes are true and
    not a dict raises AttributeError after the registration, whatever its
    decoding was before. *)
Theorem from_data_after_repo_type (REPO_CLASSES : Registry) (pulp_type klass : string)
    (data : pydict) :
  from_data (repo_type pulp_type klass REPO_CLASSES) RepositoryClass data
  = match get_or_empty "notes" data with
    | PDict _ =>
        if bool_decide (repo_type_of data = Some pulp_type)
        then inr (Subclass klass)
        else from_data REPO_CLASSES RepositoryClass data
    | _ => inl (AttributeError "get")
    end.
Proof.
  destruct (get_or_empty "notes" data) as [| | | |l|n] eqn:Hn;
    try (apply from_data_not_dict;
         [apply registry_set_not_empty|intros n'; rewrite Hn; discriminate]).
  rewrite !(from_data_lookup _ _ _ Hn). unfold repo_type.
  destruct (repo_type_of data) as [t|]; simpl.
  - rewrite registry_get_set. destruct (String.eqb_spec t pulp_type) as [->|Hne].
    + now rewrite bool_decide_eq_true_2.
    + rewrite bool_decide_eq_false_2; [reflexivity|congruence].
  - reflexivity.
Qed.

(** The theorem at a type that is registered a second time, at data of
    another type, and at notes that are a string, which decode as
    Repository before the first registration. *)
Lemma from_data_after_repo_type_witness :
  let REPO_CLASSES := repo_type "iso-repo" "FileRepository"
                        (repo_type "rpm-repo" "YumRepository" []) in
  let data := [("notes", PDict [("_repo-type", PStr "rpm-repo")])] in
  let other := [("notes", PDict [("_repo-type", PStr "iso-repo")])] in
  let legacy := [("notes", PStr "legacy")] in
  from_data (repo_type "rpm-repo" "MyYumRepository" REPO_CLASSES) RepositoryClass data
  = inr (Subclass "MyYumRepository") /\
  from_data (repo_type "rpm-repo" "MyYumRepository" REPO_CLASSES) RepositoryClass other
  = inr (Subclass "FileRepository") /\
  from_data [] RepositoryClass legacy = inr RepositoryClass /\
  from_data (repo_type "rpm-repo" "YumRepository" []) RepositoryClass legacy
  = inl (AttributeError "get").
Proof.
  intros REPO_CLASSES data other legacy. split; [|split; [|split]].
  - exact (from_data_after_repo_type REPO_CLASSES "rpm-repo" "MyYumRepository" data).
  - exact (from_data_after_repo_type REPO_CLASSES "rpm-repo" "MyYumRepository" other).
  - reflexivity.
  - exact (from_data_after_repo_type [] "rpm-repo" "YumRepository" legacy).
Defined.

(** X21. Notes that are true and not a dict make [from_data] raise
    AttributeError as soon as one class is registered, and are not looked at
    when none is; a subclass of Repository always decodes with itself,
    whatever the notes and the registry hold. *)
Theorem from_data_edges (REPO_CLASSES : Registry) (data : pydict) :
  from_data [] RepositoryClass data = inr RepositoryClass /\
  (forall klass, from_data REPO_CLASSES (Subclass klass) data = inr (Subclass klass)) /\
  ((forall n, get_or_empty "notes" data <> PDict n) ->
   REPO_CLASSES <> [] ->
   from_data REPO_CLASSES RepositoryClass data = inl (AttributeError "get")).
Proof.
  split; [reflexivity|]. split; [reflexivity|].
  intros Hnot Hne. unfold from_data.
  destruct REPO_CLASSES as [|[k klass] r]; [contradiction|]. simpl.
  destruct (get_or_empty "notes" data); try reflexivity. now destruct (Hnot d).
Qed.

(** The theorem at notes that are a string. *)
Lemma from_data_edges_witness :
  from_data (repo_type "rpm-repo" "YumRepository" []) RepositoryClass
            [("notes", PStr "rpm-repo")]
  = inl (AttributeError "get").
Proof.
  apply (proj2 (proj2 (from_data_edges (repo_type "rpm-repo" "YumRepository" [])
                                       [("notes", PStr "rpm-repo")]))).
  - intros n. discriminate.
  - discriminate.
Defined.

(** ** [_data_to_init_args] *)

Lemma dict_get_set_ne (k h : string) (v : pyval) (d : pydict) :
  k <> h -> dict_get k (dict_set h v d) = dict_get k d.
Proof.
  intros Hne. induction d as [|[k' v'] d IH]; simpl.
  - destruct (String.eqb_spec k h); [contradiction|reflexivity].
  - destruct (String.eqb_spec h k') as [->|Hh]; simpl.
    + destruct (String.eqb_spec k k'); [contradiction|reflexivity].
    + destruct (String.eqb_spec k k'); [reflexivity|exact IH].
Qed.

Lemma data_to_init_args_loop_app (out : pydict) (l1 l2 : list pyval) :
  _data_to_init_args_loop out (l1 ++ l2)
  = match _data_to_init_args_loop out l1 with
    | inl e => inl e
    | inr out1 => _data_to_init_args_loop out1 l2
    end.
Proof.
  revert out. induction l1 as [|dist l1 IH]; intros out; simpl; [reflexivity|].
  destruct (_data_to_init_args_body out dist); [reflexivity|apply IH].
Qed.

(** What a successful turn of the loop went through. *)
Lemma data_to_init_args_body_inv (out out' : pydict) (dist : pyval) :
  _data_to_init_args_body out dist = inr out' ->
  exists d type_id i out1,
    dist = PDict d /\
    dict_get "distributor_type_id" d = Some type_id /\
    dict_get "id" d = Some i /\
    set_relative_url d type_id out = inr out1 /\
    set_skip_rsync_repodata d i out1 = inr out'.
Proof.
  unfold _data_to_init_args_body. destruct dist as [| | | | |d]; try discriminate.
  destruct (dict_get "distributor_type_id" d) as [type_id|] eqn:Et; [|discriminate].
  destruct (set_relative_url d type_id out) as [e|out1] eqn:E1; [discriminate|].
  destruct (dict_get "id" d) as [i|] eqn:Ei; [|discriminate].
  intros H. now exists d, type_id, i, out1.
Qed.

Lemma set_relative_url_frame (d : pydict) (type_id : pyval) (out out' : pydict) (k : string) :
  set_relative_url d type_id out = inr out' ->
  (k = "relative_url" ->
   is_str type_id "yum_distributor" || is_str type_id "iso_distributor" = false) ->
  dict_get k out' = dict_get k out.
Proof.
  unfold set_relative_url. intros H Hk.
  destruct (is_str type_id "yum_distributor" || is_str type_id "iso_distributor");
    [|now injection H as <-].
  destruct (config_get d "relative_url") as [e|v]; [discriminate|]. injection H as <-.
  apply dict_get_set_ne. intros ->. now specialize (Hk eq_refl).
Qed.

Lemma set_skip_rsync_repodata_frame (d : pydict) (i : pyval) (out out' : pydict)
    (k : string) :
  set_skip_rsync_repodata d i out = inr out' ->
  (k = "skip_rsync_repodata" -> is_str i "cdn_distributor" = false) ->
  dict_get k out' = dict_get k out.
Proof.
  unfold set_skip_rsync_repodata. intros H Hk.
  destruct (is_str i "cdn_distributor"); [|now injection H as <-].
  assert (Hne : k <> "skip_rsync_repodata") by (intros ->; now specialize (Hk eq_refl)).
  destruct (config_get d "skip_repodata") as [e|[]]; try discriminate;
    injection H as <-; try reflexivity; now apply dict_get_set_ne.
Qed.

(** One turn of the loop changes relative_url only for a distributor of
    type yum or iso, skip_rsync_repodata only for the distributor
    cdn_distributor, and no other argument. *)
Lemma data_to_init_args_body_frame (out out' : pydict) (dist : pyval) (k : string) :
  _data_to_init_args_body out dist = inr out' ->
  (k = "relative_url" -> sets_relative_url dist = false) ->
  (k = "skip_rsync_repodata" -> is_cdn_distributor dist = false) ->
  dict_get k out' = dict_get k out.
Proof.
  intros H Hurl Hskip.
  apply data_to_init_args_body_inv in H as (d & t & i & out1 & -> & Ht & Hi & H1 & H2).
  unfold sets_relative_url, is_cdn_distributor in *. rewrite Ht in Hurl. rewrite Hi in Hskip.
  rewrite (set_skip_rsync_repodata_frame _ _ _ _ k H2 Hskip).
  apply (set_relative_url_frame _ _ _ _ k H1 Hurl).
Qed.

Lemma data_to_init_args_loop_frame (out out' : pydict) (dists : list pyval) (k : string) :
  _data_to_init_args_loop out dists = inr out' ->
  (k = "relative_url" -> Forall (fun dist => sets_relative_url dist = false) dists) ->
  (k = "skip_rsync_repodata" ->
   Forall (fun dist => is_cdn_distributor dist = false) dists) ->
  dict_get k out' = dict_get k out.
Proof.
  revert out. induction dists as [|dist dists IH]; intros out H Hurl Hskip; simpl in H.
  - now injection H as <-.
  - destruct (_data_to_init_args_body out dist) as [e|out1] eqn:E; [discriminate|].
    rewrite (IH out1 H).
    + apply (data_to_init_args_body_frame _ _ _ _ E).
      * intros Hk. specialize (Hurl Hk). now inversion Hurl.
      * intros Hk. specialize (Hskip Hk). now inversion Hskip.
    + intros Hk. specialize (Hurl Hk). now inversion Hurl.
    + intros Hk. specialize (Hskip Hk). now inversion Hskip.
Qed.

(** X22. Without distributors in the data (none, None or an empty list) the
    inherited arguments are returned as they are. With distributors, when
    the decoding succeeds, relative_url can differ from the inherited one
    only if some distributor is of type yum_distributor or iso_distributor,
    skip_rsync_repodata only if some distributor has the id
    cdn_distributor, and every other argument is the inherited one. *)
Theorem data_to_init_args_frame (out : pydict) (data : pydict) :
  (distributors_of data = inr [] -> _data_to_init_args (inr out) data = inr out) /\
  forall (dists : list pyval) (out' : pydict),
    distributors_of data = inr dists ->
    _data_to_init_args (inr out) data = inr out' ->
    (forall k, k <> "relative_url" -> k <> "skip_rsync_repodata" ->
               dict_get k out' = dict_get k out) /\
    (Forall (fun dist => sets_relative_url dist = false) dists ->
     dict_get "relative_url" out' = dict_get "relative_url" out) /\
    (Forall (fun dist => is_cdn_distributor dist = false) dists ->
     dict_get "skip_rsync_repodata" out' = dict_get "skip_rsync_repodata" out).
Proof.
  unfold _data_to_init_args. split; [now intros ->|].
  intros dists out' -> H. split; [|split].
  - intros k H1 H2. apply (data_to_init_args_loop_frame _ _ _ _ H); contradiction.
  - intros Hall. apply (data_to_init_args_loop_frame _ _ _ _ H); [auto|discriminate].
  - intros Hall. apply (data_to_init_args_loop_frame _ _ _ _ H); [discriminate|auto].
Qed.

(** The theorem at data whose only distributor is the cdn distributor,
    with skip_repodata set: relative_url and id stay the inherited ones. *)
Lemma data_to_init_args_frame_witness :
  let out := [("id", PStr "repo1"); ("relative_url", PStr "content/repo1")] in
  let out' := [("id", PStr "repo1"); ("relative_url", PStr "content/repo1");
               ("skip_rsync_repodata", PBool true)] in
  let dist := PDict [("id", PStr "cdn_distributor");
                     ("distributor_type_id", PStr "rpm_rsync_distributor");
                     ("config", PDict [("skip_repodata", PBool true)])] in
  let data := [("id", PStr "repo1"); ("distributors", PList [dist])] in
  _data_to_init_args (inr out) data = inr out' /\
  dict_get "relative_url" out' = dict_get "relative_url" out /\
  dict_get "id" out' = dict_get "id" out.
Proof.
  intros out out' dist data.
  pose proof (proj2 (data_to_init_args_frame out data) [dist] out' eq_refl eq_refl)
    as (Hother & Hurl & _).
  split; [reflexivity|]. split.
  - apply Hurl. repeat constructor.
  - apply Hother; discriminate.
Defined.

Lemma data_to_init_args_split (out out' : pydict) (before after : list pyval) (dist : pyval) :
  _data_to_init_args_loop out (before ++ dist :: after) = inr out' ->
  exists out1 out2,
    _data_to_init_args_loop out before = inr out1 /\
    _data_to_init_args_body out1 dist = inr out2 /\
    _data_to_init_args_loop out2 after = inr out'.
Proof.
  rewrite data_to_init_args_loop_app.
  destruct (_data_to_init_args_loop out before) as [e|out1]; [discriminate|]. simpl.
  destruct (_data_to_init_args_body out1 dist) as [e|out2] eqn:E; [discriminate|].
  intros H. now exists out1, out2.
Qed.

(** X23. relative_url is given by the last distributor of type yum_distributor
    or iso_distributor: it is the relative_url of that distributor's config,
    and None when the distributor has no config or its config has no
    relative_url, whatever the distributors before it gave. *)
Theorem data_to_init_args_relative_url (out out' data : pydict)
    (before after : list pyval) (d : pydict) :
  distributors_of data = inr (before ++ PDict d :: after) ->
  sets_relative_url (PDict d) = true ->
  Forall (fun dist => sets_relative_url dist = false) after ->
  _data_to_init_args (inr out) data = inr out' ->
  exists v,
    config_get d "relative_url" = inr v /\
    dict_get "relative_url" out' = Some v /\
    (dict_get "config" d = None -> v = PNone).
Proof.
  unfold _data_to_init_args. intros -> Hd Hafter H.
  apply data_to_init_args_split in H as (out1 & out2 & _ & Hbody & Hloop).
  rewrite (data_to_init_args_loop_frame _ _ _ "relative_url" Hloop);
    [|auto|discriminate].
  apply data_to_init_args_body_inv in Hbody
    as (d' & t & i & o1 & [= <-] & Ht & Hi & H1 & H2).
  rewrite (set_skip_rsync_repodata_frame _ _ _ _ "relative_url" H2) by discriminate.
  unfold sets_relative_url in Hd. rewrite Ht in Hd.
  unfold set_relative_url in H1. rewrite Hd in H1.
  destruct (config_get d "relative_url") as [e|v] eqn:Ev; [discriminate|].
  injection H1 as <-. exists v. split; [reflexivity|]. split; [apply dict_get_set|].
  intros Hc. unfold config_get, get_or_empty in Ev. rewrite Hc in Ev. simpl in Ev.
  now injection Ev as <-.
Qed.

(** The theorem at a yum distributor without config that comes after an
    iso distributor with a relative_url. *)
Lemma data_to_init_args_relative_url_witness :
  let iso := PDict [("id", PStr "iso_distributor");
                    ("distributor_type_id", PStr "iso_distributor");
                    ("config", PDict [("relative_url", PStr "content/iso")])] in
  let yum := [("id", PStr "yum_distributor");
              ("distributor_type_id", PStr "yum_distributor")] in
  let data := [("id", PStr "repo1"); ("distributors", PList [iso; PDict yum])] in
  _data_to_init_args (inr []) data = inr [("relative_url", PNone)] /\
  exists v,
    config_get yum "relative_url" = inr v /\
    dict_get "relative_url" [("relative_url", PNone)] = Some v /\
    (dict_get "config" yum = None -> v = PNone).
Proof.
  intros iso yum data. split; [reflexivity|].
  apply (data_to_init_args_relative_url [] _ data [iso] [] yum);
    [reflexivity|reflexivity|constructor|reflexivity].
Defined.

(** X24. skip_rsync_repodata is given by the last distributor with the id
    cdn_distributor when its config has a skip_repodata other than None;
    when it has none, the argument is left as it was: with no other such
    distributor, it is the inherited one. *)
Theorem data_to_init_args_skip_rsync_repodata (out out' data : pydict)
    (before after : list pyval) (d : pydict) :
  distributors_of data = inr (before ++ PDict d :: after) ->
  is_cdn_distributor (PDict d) = true ->
  Forall (fun dist => is_cdn_distributor dist = false) after ->
  _data_to_init_args (inr out) data = inr out' ->
  exists v,
    config_get d "skip_repodata" = inr v /\
    (v <> PNone -> dict_get "skip_rsync_repodata" out' = Some v) /\
    (v = PNone ->
     Forall (fun dist => is_cdn_distributor dist = false) before ->
     dict_get "skip_rsync_repodata" out' = dict_get "skip_rsync_repodata" out).
Proof.
  unfold _data_to_init_args. intros -> Hd Hafter H.
  apply data_to_init_args_split in H as (out1 & out2 & Hbefore & Hbody & Hloop).
  rewrite (data_to_init_args_loop_frame _ _ _ "skip_rsync_repodata" Hloop);
    [|discriminate|auto].
  apply data_to_init_args_body_inv in Hbody
    as (d' & t & i & o1 & [= <-] & Ht & Hi & H1 & H2).
  unfold is_cdn_distributor in Hd. rewrite Hi in Hd.
  unfold set_skip_rsync_repodata in H2. rewrite Hd in H2.
  assert (Ho1 : dict_get "skip_rsync_repodata" o1 = dict_get "skip_rsync_repodata" out1)
    by (apply (set_relative_url_frame _ _ _ _ _ H1); discriminate).
  destruct (config_get d "skip_repodata") as [e|v] eqn:Ev; [discriminate|].
  exists v. split; [reflexivity|]. split.
  - intros Hv. destruct v; try contradiction; injection H2 as <-; apply dict_get_set.
  - intros -> Hall. injection H2 as <-. rewrite Ho1.
    apply (data_to_init_args_loop_frame _ _ _ _ Hbefore); [discriminate|auto].
Qed.

(** The theorem at a cdn distributor whose config sets skip_repodata. *)
Lemma data_to_init_args_skip_rsync_repodata_witness :
  let cdn := [("id", PStr "cdn_distributor");
              ("distributor_type_id", PStr "rpm_rsync_distributor");
              ("config", PDict [("skip_repodata", PBool true)])] in
  let data := [("id", PStr "repo1"); ("distributors", PList [PDict cdn])] in
  _data_to_init_args (inr [("skip_rsync_repodata", PBool false)]) data
  = inr [("skip_rsync_repodata", PBool true)] /\
  exists v,
    config_get cdn "skip_repodata" = inr v /\
    (v <> PNone ->
     dict_get "skip_rsync_repodata" [("skip_rsync_repodata", PBool true)] = Some v) /\
    (v = PNone ->
     Forall (fun dist => is_cdn_distributor dist = false) [] ->
     dict_get "skip_rsync_repodata" [("skip_rsync_repodata", PBool true)]
     = dict_get "skip_rsync_repodata" [("skip_rsync_repodata", PBool false)]).
Proof.
  intros cdn data. split; [reflexivity|].
  apply (data_to_init_args_skip_rsync_repodata _ _ data [] [] cdn);
    [reflexivity|reflexivity|constructor|reflexivity].
Defined.

(** ** [pv_converter]: the order of the input *)

(** Two lists in order that hold the same elements are equal, when no two
    different elements are level in the order. *)
Lemma sorted_unique {A : Type} (lt : A -> A -> bool) (l1 l2 : list A) :
  (forall a b, In a l1 -> In b l1 -> lt a b = false -> lt b a = false -> a = b) ->
  StronglySorted (PySort.le lt) l1 ->
  StronglySorted (PySort.le lt) l2 ->
  Permutation l1 l2 ->
  l1 = l2.
Proof.
  intros Hanti Hs1. revert l2. induction Hs1 as [|x l1 Hs1 IH Hx]; intros l2 Hs2 Hp.
  - now apply Permutation_nil in Hp.
  - destruct Hs2 as [|y l2 Hs2 Hy]; [now apply Permutation_sym, Permutation_nil in Hp|].
    assert (Hxy : x = y).
    { assert (Hin1 : In x (y :: l2)) by (apply (Permutation_in _ Hp); now left).
      assert (Hin2 : In y (x :: l1))
        by (apply (Permutation_in _ (Permutation_sym Hp)); now left).
      destruct Hin1 as [->|Hin1]; [reflexivity|].
      destruct Hin2 as [->|Hin2]; [reflexivity|].
      rewrite List.Forall_forall in Hx, Hy.
      apply Hanti; [now left|now right| |].
      - apply (Hy x Hin1).
      - apply (Hx y Hin2). }
    subst y. f_equal. apply IH; [|exact Hs2|].
    + intros a b Ha Hb. apply Hanti; now right.
    + now apply Permutation_cons_inv in Hp.
Qed.

Lemma code_inj (x y : ascii) : code x = code y -> x = y.
Proof.
  unfold code. intros H. apply N2Z.inj in H.
  rewrite <- (ascii_N_embedding x), <- (ascii_N_embedding y). now rewrite H.
Qed.

Lemma str_lt_antisym (a b : string) : str_lt a b = false -> str_lt b a = false -> a = b.
Proof.
  revert b. induction a as [|x a IH]; intros [|y b]; simpl; try congruence.
  destruct (Z.ltb_spec (code x) (code y)), (Z.ltb_spec (code y) (code x));
    try congruence.
  intros H1 H2. assert (Hc : code x = code y) by lia.
  apply code_inj in Hc. subst y. f_equal. now apply IH.
Qed.

Lemma list_lt_antisym (a b : list Z) : list_lt a b = false -> list_lt b a = false -> a = b.
Proof.
  revert b. induction a as [|x a IH]; intros [|y b]; simpl; try congruence.
  destruct (Z.ltb_spec x y), (Z.ltb_spec y x); try congruence.
  intros H1 H2. assert (x = y) by lia. subst y. f_equal. now apply IH.
Qed.

(** The decorated list, as a map over the versions. *)
Lemma keyed_fmap (int : string -> option Z) (versions : list string) (keyed : list (list Z * string)) :
  mapM (fun v => k ← version_key int v; Some (k, v)) versions = Some keyed ->
  keyed = (fun v => (match version_key int v with Some k => k | None => [] end, v)) <$> versions.
Proof.
  intros H. apply mapM_Some in H.
  induction H as [|v kv versions keyed Hv _ IH]; [reflexivity|].
  rewrite fmap_cons, <- IH. f_equal.
  destruct (version_key int v) as [k|]; simpl in Hv; [|discriminate]. now injection Hv.
Qed.

(** X8. The result does not depend on the order of the input, as long as no
    two different versions of the input have the same numeric key (as "8.1"
    and "08.1" have): two lists with the same versions are converted to the
    same list. *)
Theorem pv_converter_order_insensitive (int : string -> option Z) (versions versions' : list string) :
  Permutation versions versions' ->
  (forall a b k, In a versions -> In b versions ->
                 version_key int a = Some k -> version_key int b = Some k -> a = b) ->
  pv_converter int versions = pv_converter int versions'.
Proof.
  intros Hp Hinj. unfold pv_converter.
  destruct (mapM _ versions) as [keyed|] eqn:E; destruct (mapM _ versions') as [keyed'|] eqn:E'.
  - f_equal.
    pose proof (keyed_spec _ _ _ E) as [Hsnd Hkeys].
    assert (Hpk : Permutation keyed keyed').
    { rewrite (keyed_fmap _ _ _ E), (keyed_fmap _ _ _ E'). now apply Permutation_map. }
    apply (sorted_unique (fun a b => list_lt (fst a) (fst b))).
    + intros a b Ha Hb Hab Hba.
      assert (Hin : forall kv, In kv (PySort.sorted (fun a b => list_lt (fst a) (fst b)) keyed) ->
                    version_key int (snd kv) = Some (fst kv) /\ In (snd kv) versions).
      { intros kv Hkv.
        apply (Permutation_in kv (Permutation_sym
                 (sorted_perm (fun a b => list_lt (fst a) (fst b)) keyed))) in Hkv.
        split.
        - rewrite Forall_forall in Hkeys. now apply Hkeys, list_elem_of_In.
        - rewrite <- Hsnd. now apply in_map. }
      destruct (Hin a Ha) as [Hka Hva], (Hin b Hb) as [Hkb Hvb].
      assert (Hk : fst a = fst b) by now apply list_lt_antisym.
      destruct a as [ka va], b as [kb vb]. simpl in *. subst kb. f_equal.
      now apply (Hinj va vb ka).
    + apply sorted_StronglySorted; [intros a b; apply list_lt_asym|].
      intros a b c. apply list_le_trans.
    + apply sorted_StronglySorted; [intros a b; apply list_lt_asym|].
      intros a b c. apply list_le_trans.
    + rewrite <- (sorted_perm (fun a b => list_lt (fst a) (fst b)) keyed),
        <- (sorted_perm (fun a b => list_lt (fst a) (fst b)) keyed'). exact Hpk.
  - exfalso. apply mapM_None in E'.
    assert (Hs : is_Some (mapM (fun v => k ← version_key int v; Some (k, v)) versions))
      by (exists keyed; exact E).
    apply mapM_is_Some in Hs. apply Exists_exists in E' as (v & Hv & Hf).
    rewrite Forall_forall in Hs. rewrite <- Hp in Hv. specialize (Hs v Hv).
    simpl in Hs. rewrite Hf in Hs. now destruct Hs.
  - exfalso. apply mapM_None in E.
    assert (Hs : is_Some (mapM (fun v => k ← version_key int v; Some (k, v)) versions'))
      by (exists keyed'; exact E').
    apply mapM_is_Some in Hs. apply Exists_exists in E as (v & Hv & Hf).
    rewrite Forall_forall in Hs. rewrite Hp in Hv. specialize (Hs v Hv).
    simpl in Hs. rewrite Hf in Hs. now destruct Hs.
  - apply (sorted_unique str_lt).
    + intros a b _ _. apply str_lt_antisym.
    + apply sorted_StronglySorted; [apply str_lt_asym|apply str_le_trans].
    + apply sorted_StronglySorted; [apply str_lt_asym|apply str_le_trans].
    + now rewrite <- (sorted_perm str_lt versions), <- (sorted_perm str_lt versions').
Qed.

(** The theorem at two orders of the same three versions. *)
Lemma pv_converter_order_insensitive_witness :
  pv_converter int_ascii ["8.10"; "7"; "8.8"] = pv_converter int_ascii ["8.8"; "8.10"; "7"].
Proof.
  apply pv_converter_order_insensitive.
  - apply perm_trans with ("8.8" :: "8.10" :: ["7"]); [|reflexivity].
    apply Permutation_sym, Permutation_cons_app with (l1 := ["8.10"; "7"]) (l2 := []).
    now rewrite app_nil_r.
  - intros a b k Ha Hb. simpl in Ha, Hb.
    destruct Ha as [<-|[<-|[<-|[]]]], Hb as [<-|[<-|[<-|[]]]];
      vm_compute; congruence.
Defined.

(** ** [sync]: the payload and the options *)

Lemma asdict_not_none_get (options : SyncOptions) (name : string) (val : option pyval) :
  In (name, val) (SyncOptions_attributes options) ->
  dict_get name (asdict_not_none options) = val.
Proof.
  intros Hin. apply dict_get_omap; [|now apply list_elem_of_In].
  unfold SyncOptions_attributes. simpl.
  refine (bool_decide_unpack (NoDup _) _). vm_compute. exact I.
Qed.

(** X26. The payload of a sync loses nothing of the options: leaving out the
    attributes that are None, it still tells any two different SyncOptions
    apart. *)
Theorem sync_payload_determines_options (options options' : SyncOptions) :
  asdict_not_none options = asdict_not_none options' -> options = options'.
Proof.
  intros H.
  assert (Hget : forall name val val',
             In (name, val) (SyncOptions_attributes options) ->
             In (name, val') (SyncOptions_attributes options') -> val = val').
  { intros name val val' H1 H2.
    rewrite <- (asdict_not_none_get _ _ _ H1), <- (asdict_not_none_get _ _ _ H2).
    now rewrite H. }
  assert (HS : forall a b : option string, PStr <$> a = PStr <$> b -> a = b)
    by (intros [a|] [b|]; simpl; congruence).
  assert (HB : forall a b : option bool, PBool <$> a = PBool <$> b -> a = b)
    by (intros [a|] [b|]; simpl; congruence).
  assert (HZ : forall a b : option Z, PInt <$> a = PInt <$> b -> a = b)
    by (intros [a|] [b|]; simpl; congruence).
  destruct options, options'. unfold SyncOptions_attributes in Hget. simpl in Hget.
  f_equal;
    first [apply HS | apply HB | apply HZ];
    match goal with
    | |- ?f <$> ?a = ?f <$> ?b =>
        first
          [ apply (Hget "feed"); simpl; tauto
          | apply (Hget "ssl_validation"); simpl; tauto
          | apply (Hget "ssl_ca_cert"); simpl; tauto
          | apply (Hget "ssl_client_cert"); simpl; tauto
          | apply (Hget "ssl_client_key"); simpl; tauto
          | apply (Hget "max_speed"); simpl; tauto
          | apply (Hget "proxy_host"); simpl; tauto
          | apply (Hget "proxy_port"); simpl; tauto
          | apply (Hget "proxy_username"); simpl; tauto
          | apply (Hget "proxy_password"); simpl; tauto
          | apply (Hget "basic_auth_username"); simpl; tauto
          | apply (Hget "basic_auth_password"); simpl; tauto ]
    end.
Qed.

(** The theorem at options with a feed and a proxy port, written twice. *)
Lemma sync_payload_determines_options_witness :
  let options := {| feed := Some "https://example.com/repo"; ssl_validation := None;
                    ssl_ca_cert := None; ssl_client_cert := None; ssl_client_key := None;
                    max_speed := None; proxy_host := None; proxy_port := Some 3128;
                    proxy_username := None; proxy_password := None;
                    basic_auth_username := None; basic_auth_password := None |} in
  let options' := {| feed := feed options; ssl_validation := None;
                     ssl_ca_cert := None; ssl_client_cert := None; ssl_client_key := None;
                     max_speed := None; proxy_host := None;
                     proxy_port := proxy_port options;
                     proxy_username := None; proxy_password := None;
                     basic_auth_username := None; basic_auth_password := None |} in
  options = options'.
Proof.
  intros options options'.
  exact (sync_payload_determines_options options options' eq_refl).
Defined.
